(** * txrudp: the RUDP connection state machine (txrudp/connection.py)

    A shallow embedding of [RUDPConnection].  The connection object, the
    Twisted reactor's delayed calls it registers, the datagrams handed to
    the protocol and the notifications given to the handler are gathered
    in one record that every method transforms.  A method that raises
    keeps the mutations made before the exception, as the Python object
    does.  The protocol and the handler are taken to return without
    calling back into the connection. *)

From Stdlib Require Import ZArith Lia Bool String.
From Stdlib Require Import Strings.Byte.
From stdpp Require Import base list sorting.

Local Open Scope Z_scope.

(** ** Python helpers *)

Module py.

(** [range(n)] *)
Definition range (n : Z) : list Z := seqZ 0 n.

(** [range(a, b)] *)
Definition range2 (a b : Z) : list Z := seqZ a (b - a).

(** Normalisation of one bound of a slice of a sequence of length [n]. *)
Definition clamp (n i : Z) : Z :=
  if i <? 0 then Z.max (i + n) 0 else Z.min i n.

(** [s[a:b]] *)
Definition slice {A} (a b : Z) (s : list A) : list A :=
  let n := Z.of_nat (length s) in
  let lo := clamp n a in
  let hi := clamp n b in
  take (Z.to_nat (hi - lo)) (drop (Z.to_nat lo) s).

Inductive exn :=
| KeyError | AttributeError | AssertionError | ZeroDivisionError
| RecursionError | AlreadyCalled | AlreadyCancelled.

End py.

(** ** txrudp.packet *)

Module packet.

Abbreviation Address := (string * Z)%type.

(** Modelled from the spec: [packet.RUDPPacket] is not part of the
    connection module; the record has the semantic fields of the data
    model, in the order of the constructor calls made by the
    connection. *)
Record RUDPPacket := mk {
  sequence_number : Z;
  dest_addr : Address;
  source_addr : Address;
  payload : list byte;
  more_fragments : Z;
  ack : Z;
  fin : bool;
  syn : bool
}.

End packet.

Abbreviation RUDPPacket := packet.RUDPPacket.
Abbreviation Address := packet.Address.

(** ** twisted.internet *)

Module twisted.

(** Delays handed to the reactor: [0] or one of the [constants]. *)
Inductive Delay := Zero | PACKET_TIMEOUT | BARE_ACK_TIMEOUT | KEEP_ALIVE_TIMEOUT.

Inductive CallState := Pending | Called | Cancelled.

(** A [DelayedCall] of [_do_send_packet seqnum]. *)
Record DelayedCall := mkCall {
  delay : Delay;
  seqnum : Z;
  state : CallState
}.

Definition active (st : CallState) : bool :=
  match st with Pending => true | _ => false end.

(** [task.LoopingCall], as far as the connection looks at it. *)
Record LoopingCall := mkLoop {
  running : bool;
  interval : Delay
}.

Definition idle : LoopingCall := mkLoop false Zero.

End twisted.

Abbreviation Delay := twisted.Delay.
Abbreviation DelayedCall := twisted.DelayedCall.
Abbreviation LoopingCall := twisted.LoopingCall.
Abbreviation running := twisted.running.

(** The wire form of a packet ([json.dumps(rudp_packet.to_json())]) is
    kept as the packet it encodes. *)
Abbreviation Datagram := RUDPPacket.

(** [RUDPConnection.ScheduledPacket] *)
Record ScheduledPacket := mkScheduled {
  rudp_packet : Datagram;
  timeout : Delay;
  timeout_cb : nat;          (* reference into the reactor's calls *)
  retries : Z
}.

Abbreviation Segment := (Z * list byte)%type.

Record RUDPConnection := mkConn {
  own_addr : Address;
  dest_addr : Address;
  relay_addr : Address;
  connected : bool;
  _next_sequence_number : Z;
  _next_expected_seqnum : Z;
  _segment_queue : list Segment;
  _sending_window : list (Z * ScheduledPacket);     (* OrderedDict *)
  _receive_heap : list RUDPPacket;
  _looping_send : LoopingCall;
  _looping_ack : LoopingCall;
  _looping_receive : LoopingCall;
  _syn_handle : twisted.CallState;
  (* the collaborators *)
  reactor_calls : list DelayedCall;                 (* REACTOR.callLater *)
  proto_sent : list (Datagram * Address);           (* proto.send_datagram *)
  handler_received : list (list byte);              (* handler.receive_message *)
  handler_shutdowns : nat                           (* handler.handle_shutdown *)
}.

(** Outcome of a method call: the connection after it, and the exception
    if one escaped. *)
Inductive Res :=
| Ok (c : RUDPConnection)
| Raise (e : py.exn) (c : RUDPConnection).

Definition conn_of (r : Res) : RUDPConnection :=
  match r with Ok c => c | Raise _ c => c end.

Definition and_then (r : Res) (k : RUDPConnection -> Res) : Res :=
  match r with Ok c => k c | Raise e c => Raise e c end.

Notation "r >>= k" := (and_then r k) (at level 50, left associativity).

(** *** Field updates *)

Definition set_connected (v : bool) (c : RUDPConnection) : RUDPConnection :=
  mkConn (own_addr c) (dest_addr c) (relay_addr c) v (_next_sequence_number c)
    (_next_expected_seqnum c) (_segment_queue c) (_sending_window c)
    (_receive_heap c) (_looping_send c) (_looping_ack c) (_looping_receive c)
    (_syn_handle c) (reactor_calls c) (proto_sent c) (handler_received c)
    (handler_shutdowns c).

Definition set_next_sequence_number (v : Z) (c : RUDPConnection) : RUDPConnection :=
  mkConn (own_addr c) (dest_addr c) (relay_addr c) (connected c) v
    (_next_expected_seqnum c) (_segment_queue c) (_sending_window c)
    (_receive_heap c) (_looping_send c) (_looping_ack c) (_looping_receive c)
    (_syn_handle c) (reactor_calls c) (proto_sent c) (handler_received c)
    (handler_shutdowns c).

Definition set_next_expected_seqnum (v : Z) (c : RUDPConnection) : RUDPConnection :=
  mkConn (own_addr c) (dest_addr c) (relay_addr c) (connected c)
    (_next_sequence_number c) v (_segment_queue c) (_sending_window c)
    (_receive_heap c) (_looping_send c) (_looping_ack c) (_looping_receive c)
    (_syn_handle c) (reactor_calls c) (proto_sent c) (handler_received c)
    (handler_shutdowns c).

Definition set_segment_queue (v : list Segment) (c : RUDPConnection) : RUDPConnection :=
  mkConn (own_addr c) (dest_addr c) (relay_addr c) (connected c)
    (_next_sequence_number c) (_next_expected_seqnum c) v (_sending_window c)
    (_receive_heap c) (_looping_send c) (_looping_ack c) (_looping_receive c)
    (_syn_handle c) (reactor_calls c) (proto_sent c) (handler_received c)
    (handler_shutdowns c).

Definition set_sending_window (v : list (Z * ScheduledPacket)) (c : RUDPConnection) : RUDPConnection :=
  mkConn (own_addr c) (dest_addr c) (relay_addr c) (connected c)
    (_next_sequence_number c) (_next_expected_seqnum c) (_segment_queue c) v
    (_receive_heap c) (_looping_send c) (_looping_ack c) (_looping_receive c)
    (_syn_handle c) (reactor_calls c) (proto_sent c) (handler_received c)
    (handler_shutdowns c).

Definition set_receive_heap (v : list RUDPPacket) (c : RUDPConnection) : RUDPConnection :=
  mkConn (own_addr c) (dest_addr c) (relay_addr c) (connected c)
    (_next_sequence_number c) (_next_expected_seqnum c) (_segment_queue c)
    (_sending_window c) v (_looping_send c) (_looping_ack c)
    (_looping_receive c) (_syn_handle c) (reactor_calls c) (proto_sent c)
    (handler_received c) (handler_shutdowns c).

Definition set_looping_send (v : LoopingCall) (c : RUDPConnection) : RUDPConnection :=
  mkConn (own_addr c) (dest_addr c) (relay_addr c) (connected c)
    (_next_sequence_number c) (_next_expected_seqnum c) (_segment_queue c)
    (_sending_window c) (_receive_heap c) v (_looping_ack c)
    (_looping_receive c) (_syn_handle c) (reactor_calls c) (proto_sent c)
    (handler_received c) (handler_shutdowns c).

Definition set_looping_ack (v : LoopingCall) (c : RUDPConnection) : RUDPConnection :=
  mkConn (own_addr c) (dest_addr c) (relay_addr c) (connected c)
    (_next_sequence_number c) (_next_expected_seqnum c) (_segment_queue c)
    (_sending_window c) (_receive_heap c) (_looping_send c) v
    (_looping_receive c) (_syn_handle c) (reactor_calls c) (proto_sent c)
    (handler_received c) (handler_shutdowns c).

Definition set_looping_receive (v : LoopingCall) (c : RUDPConnection) : RUDPConnection :=
  mkConn (own_addr c) (dest_addr c) (relay_addr c) (connected c)
    (_next_sequence_number c) (_next_expected_seqnum c) (_segment_queue c)
    (_sending_window c) (_receive_heap c) (_looping_send c) (_looping_ack c) v
    (_syn_handle c) (reactor_calls c) (proto_sent c) (handler_received c)
    (handler_shutdowns c).

Definition set_syn_handle (v : twisted.CallState) (c : RUDPConnection) : RUDPConnection :=
  mkConn (own_addr c) (dest_addr c) (relay_addr c) (connected c)
    (_next_sequence_number c) (_next_expected_seqnum c) (_segment_queue c)
    (_sending_window c) (_receive_heap c) (_looping_send c) (_looping_ack c)
    (_looping_receive c) v (reactor_calls c) (proto_sent c)
    (handler_received c) (handler_shutdowns c).

Definition set_reactor_calls (v : list DelayedCall) (c : RUDPConnection) : RUDPConnection :=
  mkConn (own_addr c) (dest_addr c) (relay_addr c) (connected c)
    (_next_sequence_number c) (_next_expected_seqnum c) (_segment_queue c)
    (_sending_window c) (_receive_heap c) (_looping_send c) (_looping_ack c)
    (_looping_receive c) (_syn_handle c) v (proto_sent c) (handler_received c)
    (handler_shutdowns c).

Definition set_proto_sent (v : list (Datagram * Address)) (c : RUDPConnection) : RUDPConnection :=
  mkConn (own_addr c) (dest_addr c) (relay_addr c) (connected c)
    (_next_sequence_number c) (_next_expected_seqnum c) (_segment_queue c)
    (_sending_window c) (_receive_heap c) (_looping_send c) (_looping_ack c)
    (_looping_receive c) (_syn_handle c) (reactor_calls c) v
    (handler_received c) (handler_shutdowns c).

Definition set_handler_received (v : list (list byte)) (c : RUDPConnection) : RUDPConnection :=
  mkConn (own_addr c) (dest_addr c) (relay_addr c) (connected c)
    (_next_sequence_number c) (_next_expected_seqnum c) (_segment_queue c)
    (_sending_window c) (_receive_heap c) (_looping_send c) (_looping_ack c)
    (_looping_receive c) (_syn_handle c) (reactor_calls c) (proto_sent c) v
    (handler_shutdowns c).

Definition set_handler_shutdowns (v : nat) (c : RUDPConnection) : RUDPConnection :=
  mkConn (own_addr c) (dest_addr c) (relay_addr c) (connected c)
    (_next_sequence_number c) (_next_expected_seqnum c) (_segment_queue c)
    (_sending_window c) (_receive_heap c) (_looping_send c) (_looping_ack c)
    (_looping_receive c) (_syn_handle c) (reactor_calls c) (proto_sent c)
    (handler_received c) v.

Arguments set_connected _ _ /.
Arguments set_next_sequence_number _ _ /.
Arguments set_next_expected_seqnum _ _ /.
Arguments set_segment_queue _ _ /.
Arguments set_sending_window _ _ /.
Arguments set_receive_heap _ _ /.
Arguments set_looping_send _ _ /.
Arguments set_looping_ack _ _ /.
Arguments set_looping_receive _ _ /.
Arguments set_syn_handle _ _ /.
Arguments set_reactor_calls _ _ /.
Arguments set_proto_sent _ _ /.
Arguments set_handler_received _ _ /.
Arguments set_handler_shutdowns _ _ /.

(** ** collections.OrderedDict, keyed by sequence number *)

Module odict.
Section Ops.
Context {V : Type}.

(** [d[k]]; [None] stands for [KeyError]. *)
Fixpoint get (k : Z) (d : list (Z * V)) : option V :=
  match d with
  | [] => None
  | (k', v) :: d' => if k =? k' then Some v else get k d'
  end.

(** [d[k] = v]: a present key keeps its place, a new key goes last. *)
Fixpoint set (k : Z) (v : V) (d : list (Z * V)) : list (Z * V) :=
  match d with
  | [] => [(k, v)]
  | (k', v') :: d' => if k =? k' then (k, v) :: d' else (k', v') :: set k v d'
  end.

(** The dictionary left by [d.pop(k)]. *)
Fixpoint remove (k : Z) (d : list (Z * V)) : list (Z * V) :=
  match d with
  | [] => []
  | (k', v') :: d' => if k =? k' then d' else (k', v') :: remove k d'
  end.

(** [d.keys()] and [d.values()], in insertion order. *)
Definition keys (d : list (Z * V)) : list Z := fst <$> d.
Definition values (d : list (Z * V)) : list V := snd <$> d.

End Ops.
End odict.

(** ** txrudp.heap *)

Module heap.

(** Modelled from the spec: [heap.Heap] is not part of the connection
    module.  The buffered packets are kept in increasing order of
    sequence number; [push] drops a packet whose sequence number is
    already buffered. *)
Fixpoint push (p : RUDPPacket) (h : list RUDPPacket) : list RUDPPacket :=
  match h with
  | [] => [p]
  | q :: h' =>
      if packet.sequence_number p <? packet.sequence_number q then p :: q :: h'
      else if packet.sequence_number p =? packet.sequence_number q then q :: h'
      else q :: push p h'
  end.

Fixpoint countdown (seqnum remaining : Z) (ps : list RUDPPacket) : bool :=
  match ps with
  | [] => true
  | p :: ps' =>
      (packet.sequence_number p =? seqnum) && (packet.more_fragments p =? remaining)
      && countdown (seqnum + 1) (remaining - 1) ps'
  end.

(** Modelled from the spec: [attempt_popping_all_fragments] returns the
    fragments of the message that starts at the lowest buffered
    sequence number when they are all there, consecutive and counting
    [more_fragments] down to 0, together with the remaining heap. *)
Definition attempt_popping_all_fragments (h : list RUDPPacket)
  : option (list RUDPPacket * list RUDPPacket) :=
  match h with
  | [] => None
  | p0 :: _ =>
      let n := S (Z.to_nat (packet.more_fragments p0)) in
      let fragments := take n h in
      if (length fragments =? n)%nat
         && countdown (packet.sequence_number p0) (packet.more_fragments p0) fragments
      then Some (fragments, drop n h)
      else None
  end.

End heap.

(** ** The reactor's delayed calls and looping calls *)

(** [REACTOR.callLater(delay, self._do_send_packet, seqnum)] *)
Definition callLater (d : Delay) (seqnum : Z) (c : RUDPConnection)
  : nat * RUDPConnection :=
  (length (reactor_calls c),
   set_reactor_calls (reactor_calls c ++ [twisted.mkCall d seqnum twisted.Pending]) c).

(** [call.active()]; a reference outside the store is never produced. *)
Definition active_in (calls : list DelayedCall) (id : nat) : bool :=
  match calls !! id with
  | Some dc => twisted.active (twisted.state dc)
  | None => false
  end.

Definition mark (id : nat) (st : twisted.CallState) (calls : list DelayedCall)
  : list DelayedCall :=
  match calls !! id with
  | Some dc => <[id := twisted.mkCall (twisted.delay dc) (twisted.seqnum dc) st]> calls
  | None => calls
  end.

Definition call_active (id : nat) (c : RUDPConnection) : bool :=
  active_in (reactor_calls c) id.

Definition mark_call (id : nat) (st : twisted.CallState) (c : RUDPConnection)
  : RUDPConnection :=
  set_reactor_calls (mark id st (reactor_calls c)) c.

(** [call.cancel()] *)
Definition call_cancel (id : nat) (c : RUDPConnection) : Res :=
  match reactor_calls c !! id with
  | Some dc =>
      match twisted.state dc with
      | twisted.Pending => Ok (mark_call id twisted.Cancelled c)
      | twisted.Called => Raise py.AlreadyCalled c
      | twisted.Cancelled => Raise py.AlreadyCancelled c
      end
  | None => Raise py.AlreadyCalled c
  end.

(** [LoopingCall.stop()]; every call of it in the connection is guarded
    by [running], so that its assertion holds. *)
Definition loop_stop (l : LoopingCall) : LoopingCall :=
  twisted.mkLoop false (twisted.interval l).

(** [LoopingCall.__call__]: run the function; an exception it raises is
    trapped and stops the loop. *)
Definition loop_call (get : RUDPConnection -> LoopingCall)
    (put : LoopingCall -> RUDPConnection -> RUDPConnection)
    (f : RUDPConnection -> Res) (c : RUDPConnection) : RUDPConnection :=
  match f c with
  | Ok c' => c'
  | Raise _ c' => put (loop_stop (get c')) c'
  end.

(** [LoopingCall.start(interval)], with Twisted's default [now=True]:
    the function is called at once.  Every call of [start] in the
    connection is made on a loop that is not running. *)
Definition loop_start (get : RUDPConnection -> LoopingCall)
    (put : LoopingCall -> RUDPConnection -> RUDPConnection)
    (i : Delay) (f : RUDPConnection -> Res) (c : RUDPConnection) : RUDPConnection :=
  loop_call get put f (put (twisted.mkLoop true i) c).

(** ** RUDPConnection *)

Section Connection.

(** [txrudp.constants] *)
Variables UDP_SAFE_SEGMENT_SIZE WINDOW_SIZE MAX_RETRANSMISSIONS : Z.

(** Number of nested calls the interpreter's recursion limit leaves to
    the bare-ACK sender. *)
Variable recursion_limit : nat.

Definition __init__ (initial_seqnum : Z) (own_addr dest_addr : Address)
    (relay_addr : option Address) : RUDPConnection :=
  mkConn own_addr dest_addr (default dest_addr relay_addr)
    false initial_seqnum 0 [] [] []
    twisted.idle twisted.idle twisted.idle twisted.Pending
    [] [] [] 0%nat.

(** [None] stands for [ZeroDivisionError]. *)
Definition _gen_segments (message : list byte) : option (list Segment) :=
  let max_size := UDP_SAFE_SEGMENT_SIZE in
  if max_size =? 0 then None
  else
    let count := (Z.of_nat (length message) + max_size - 1) / max_size in
    Some ((fun i => (count - i - 1,
                     py.slice (i * max_size) ((i + 1) * max_size) message))
            <$> py.range count).

Definition _get_next_sequence_number (c : RUDPConnection) : Z * RUDPConnection :=
  let c := set_next_sequence_number (_next_sequence_number c + 1) c in
  (_next_sequence_number c, c).

Definition _finalize_packet (rudp_packet : RUDPPacket) : Datagram := rudp_packet.

Definition _schedule_send_out_of_order (rudp_packet : RUDPPacket)
    (c : RUDPConnection) : RUDPConnection :=
  let final_packet := _finalize_packet rudp_packet in
  set_proto_sent (proto_sent c ++ [(final_packet, relay_addr c)]) c.

Definition _schedule_send_in_order (rudp_packet : RUDPPacket) (timeout : Delay)
    (c : RUDPConnection) : RUDPConnection :=
  let final_packet := _finalize_packet rudp_packet in
  let '(timeout_cb, c) := callLater twisted.Zero (packet.sequence_number rudp_packet) c in
  set_sending_window
    (odict.set (packet.sequence_number rudp_packet)
               (mkScheduled final_packet timeout timeout_cb 0)
               (_sending_window c)) c.

Definition _attempt_disabling_looping_send (c : RUDPConnection) : RUDPConnection :=
  if running (_looping_send c)
     && ((Z.of_nat (length (_sending_window c)) >=? WINDOW_SIZE)
         || (Z.of_nat (length (_segment_queue c)) =? 0))
  then set_looping_send (loop_stop (_looping_send c)) c
  else c.

Definition _dequeue_outbound_message (c : RUDPConnection) : Res :=
  match _segment_queue c with
  | [] => Raise py.AssertionError c
  | (more_fragments, message) :: rest =>
      let c := set_segment_queue rest c in
      let '(seqnum, c) := _get_next_sequence_number c in
      let rudp_packet :=
        packet.mk seqnum (dest_addr c) (own_addr c) message more_fragments
                  (_next_expected_seqnum c) false false in
      let c := _schedule_send_in_order rudp_packet twisted.PACKET_TIMEOUT c in
      Ok (_attempt_disabling_looping_send c)
  end.

Definition _attempt_enabling_looping_send (c : RUDPConnection) : RUDPConnection :=
  if connected c
     && negb (running (_looping_send c))
     && (Z.of_nat (length (_sending_window c)) <? WINDOW_SIZE)
     && negb (Z.of_nat (length (_segment_queue c)) =? 0)
  then loop_start _looping_send set_looping_send twisted.Zero
                  _dequeue_outbound_message c
  else c.

Definition send_message (message : list byte) (c : RUDPConnection) : Res :=
  match _gen_segments message with
  | None => Raise py.ZeroDivisionError c
  | Some segments =>
      let queue := foldl (fun queue segment => queue ++ [segment])
                         (_segment_queue c) segments in
      Ok (_attempt_enabling_looping_send (set_segment_queue queue c))
  end.

Definition _send_syn (c : RUDPConnection) : RUDPConnection :=
  let syn_packet :=
    packet.mk (_next_sequence_number c) (dest_addr c) (own_addr c) [] 0
              (_next_expected_seqnum c) false true in
  _schedule_send_in_order syn_packet twisted.PACKET_TIMEOUT c.

Definition ack_packet (c : RUDPConnection) : RUDPPacket :=
  packet.mk 0 (dest_addr c) (own_addr c) [] 0 (_next_expected_seqnum c) false false.

Definition fin_packet (c : RUDPConnection) : RUDPPacket :=
  packet.mk 0 (dest_addr c) (own_addr c) [] 0 (_next_expected_seqnum c) true false.

Definition _send_fin (c : RUDPConnection) : RUDPConnection :=
  _schedule_send_out_of_order (fin_packet c) c.

Definition _clear_sending_window (c : RUDPConnection) : RUDPConnection :=
  let calls := foldl (fun calls sch_packet =>
                        if active_in calls (timeout_cb sch_packet)
                        then mark (timeout_cb sch_packet) twisted.Cancelled calls
                        else calls)
                     (reactor_calls c) (odict.values (_sending_window c)) in
  set_sending_window [] (set_reactor_calls calls c).

Definition shutdown (c : RUDPConnection) : RUDPConnection :=
  let c := set_connected false c in
  let c := _send_fin c in
  let c := if running (_looping_ack c)
           then set_looping_ack (loop_stop (_looping_ack c)) c else c in
  let c := if running (_looping_send c)
           then set_looping_send (loop_stop (_looping_send c)) c else c in
  let c := if running (_looping_receive c)
           then set_looping_receive (loop_stop (_looping_receive c)) c else c in
  let c := _clear_sending_window c in
  set_handler_shutdowns (S (handler_shutdowns c)) c.

(** [_reset_ack_timeout], given the function the ack loop calls. *)
Definition reset_ack_timeout_with (send_ack : RUDPConnection -> Res)
    (timeout : Delay) (c : RUDPConnection) : RUDPConnection :=
  if running (_looping_ack c) then
    let c := set_looping_ack (loop_stop (_looping_ack c)) c in
    if connected c
    then loop_start _looping_ack set_looping_ack timeout send_ack c
    else c
  else c.

(** [_send_ack] and [_reset_ack_timeout] call each other through
    [LoopingCall.start]; [depth] bounds the nesting. *)
Fixpoint send_ack_upto (depth : nat) (c : RUDPConnection) : Res :=
  match depth with
  | O => Raise py.RecursionError c
  | S depth' =>
      let c := _schedule_send_out_of_order (ack_packet c) c in
      Ok (reset_ack_timeout_with (send_ack_upto depth') twisted.KEEP_ALIVE_TIMEOUT c)
  end.

Definition _send_ack : RUDPConnection -> Res := send_ack_upto recursion_limit.

Definition _reset_ack_timeout : Delay -> RUDPConnection -> RUDPConnection :=
  reset_ack_timeout_with _send_ack.

Definition _do_send_packet (seqnum : Z) (c : RUDPConnection) : Res :=
  match odict.get seqnum (_sending_window c) with
  | None => Raise py.KeyError c
  | Some sch_packet =>
      if retries sch_packet >=? MAX_RETRANSMISSIONS then Ok (shutdown c)
      else
        let c := set_proto_sent
                   (proto_sent c ++ [(rudp_packet sch_packet, relay_addr c)]) c in
        let '(cb, c) := callLater (timeout sch_packet) seqnum c in
        let c := set_sending_window
                   (odict.set seqnum
                      (mkScheduled (rudp_packet sch_packet) (timeout sch_packet)
                                   cb (retries sch_packet + 1))
                      (_sending_window c)) c in
        Ok (_reset_ack_timeout twisted.KEEP_ALIVE_TIMEOUT c)
  end.

Definition _process_fin_packet (rudp_packet : RUDPPacket) (c : RUDPConnection) : Res :=
  Ok (shutdown c).

(** The body of the loop of [_retire_packets_with_seqnum_up_to]. *)
Fixpoint retire_each (seqnums : list Z) (c : RUDPConnection) : Res :=
  match seqnums with
  | [] => Ok c
  | seqnum :: rest =>
      match odict.get seqnum (_sending_window c) with
      | None => Raise py.KeyError c
      | Some sch_packet =>
          let c := set_sending_window (odict.remove seqnum (_sending_window c)) c in
          call_cancel (timeout_cb sch_packet) c >>= retire_each rest
      end
  end.

Definition _retire_packets_with_seqnum_up_to (acknum : Z) (c : RUDPConnection) : Res :=
  match odict.keys (_sending_window c) with
  | [] => Ok c
  | lowest_seqnum :: _ =>
      let acknum := Z.min acknum (_next_sequence_number c) in
      retire_each (py.range2 lowest_seqnum acknum) c >>= fun c =>
      if lowest_seqnum <? acknum
      then Ok (_attempt_enabling_looping_send c)
      else Ok c
  end.

(** [_attempt_enabling_looping_receive] and
    [_attempt_disabling_looping_receive] are called but defined nowhere
    in the class: the attribute lookup fails. *)
Definition _attempt_enabling_looping_receive (c : RUDPConnection) : Res :=
  Raise py.AttributeError c.

Definition _attempt_disabling_looping_receive (c : RUDPConnection) : Res :=
  Raise py.AttributeError c.

Definition _process_casual_packet (rudp_packet : RUDPPacket) (c : RUDPConnection) : Res :=
  (if (packet.ack rudp_packet >? 0) && negb (bool_decide (_sending_window c = []))
   then _retire_packets_with_seqnum_up_to (packet.ack rudp_packet) c
   else Ok c) >>= fun c =>
  if packet.sequence_number rudp_packet >? 0 then
    let c := set_receive_heap (heap.push rudp_packet (_receive_heap c)) c in
    if packet.sequence_number rudp_packet =? _next_expected_seqnum c then
      let c := set_next_expected_seqnum (_next_expected_seqnum c + 1) c in
      let c := _reset_ack_timeout twisted.BARE_ACK_TIMEOUT c in
      _attempt_enabling_looping_receive c
    else Ok c
  else Ok c.

Definition _process_syn_packet (rudp_packet : RUDPPacket) (c : RUDPConnection) : Res :=
  if packet.ack rudp_packet >? 0 then
    match odict.keys (_sending_window c) with
    | [] => Ok c
    | lowest_seqnum :: _ =>
        if packet.ack rudp_packet =? lowest_seqnum + 1 then
          match odict.get lowest_seqnum (_sending_window c) with
          | None => Raise py.KeyError c
          | Some sch_packet =>
              let c := set_sending_window
                         (odict.remove lowest_seqnum (_sending_window c)) c in
              call_cancel (timeout_cb sch_packet) c >>= fun c =>
              let c := set_connected true c in
              Ok (_attempt_enabling_looping_send c)
          end
        else Ok c
    end
  else
    let c := set_next_expected_seqnum (packet.sequence_number rudp_packet + 1) c in
    let c := _clear_sending_window c in
    let c := if negb (twisted.active (_syn_handle c)) then _send_syn c else c in
    Ok (set_connected true c).

Definition receive_packet (rudp_packet : RUDPPacket) (c : RUDPConnection) : Res :=
  if packet.fin rudp_packet then
    if connected c || negb (twisted.active (_syn_handle c))
    then _process_fin_packet rudp_packet c
    else Ok c
  else if packet.syn rudp_packet then
    if negb (connected c) then _process_syn_packet rudp_packet c else Ok c
  else if connected c then _process_casual_packet rudp_packet c
  else Ok c.

Definition _pop_received_packet (c : RUDPConnection) : Res :=
  match heap.attempt_popping_all_fragments (_receive_heap c) with
  | None => _attempt_disabling_looping_receive c
  | Some (fragments, rest) =>
      let c := set_receive_heap rest c in
      let last_seqnum := from_option packet.sequence_number 0 (last fragments) in
      let c := if _next_expected_seqnum c <=? last_seqnum
               then _reset_ack_timeout twisted.BARE_ACK_TIMEOUT
                      (set_next_expected_seqnum (last_seqnum + 1) c)
               else c in
      let payload := concat (packet.payload <$> fragments) in
      Ok (set_handler_received (handler_received c ++ [payload]) c)
  end.

(** ** Events of the connection's life

    The calls of the public methods and the firings of what the
    connection registered with the reactor. *)
Inductive Event :=
| SendMessage (message : list byte)
| ReceivePacket (rudp_packet : RUDPPacket)
| Shutdown
| SynHandle                 (* the one-shot call of [_send_syn] *)
| DelayedSend (id : nat)    (* a delayed call of [_do_send_packet] *)
| LoopingSend               (* a turn of [_looping_send] *)
| LoopingAck                (* a turn of [_looping_ack] *)
| LoopingReceive.           (* a turn of [_looping_receive] *)

Definition fire_syn_handle (c : RUDPConnection) : RUDPConnection :=
  if twisted.active (_syn_handle c)
  then _send_syn (set_syn_handle twisted.Called c)
  else c.

Definition fire_delayed_send (id : nat) (c : RUDPConnection) : Res :=
  match reactor_calls c !! id with
  | Some dc =>
      if twisted.active (twisted.state dc)
      then _do_send_packet (twisted.seqnum dc) (mark_call id twisted.Called c)
      else Ok c
  | None => Ok c
  end.

Definition turn (get : RUDPConnection -> LoopingCall)
    (put : LoopingCall -> RUDPConnection -> RUDPConnection)
    (f : RUDPConnection -> Res) (c : RUDPConnection) : RUDPConnection :=
  if running (get c) then loop_call get put f c else c.

Definition step (e : Event) (c : RUDPConnection) : Res :=
  match e with
  | SendMessage message => send_message message c
  | ReceivePacket rudp_packet => receive_packet rudp_packet c
  | Shutdown => Ok (shutdown c)
  | SynHandle => Ok (fire_syn_handle c)
  | DelayedSend id => fire_delayed_send id c
  | LoopingSend => Ok (turn _looping_send set_looping_send _dequeue_outbound_message c)
  | LoopingAck => Ok (turn _looping_ack set_looping_ack _send_ack c)
  | LoopingReceive =>
      Ok (turn _looping_receive set_looping_receive _pop_received_packet c)
  end.

(** The connection after a sequence of events; an exception is reported
    to the caller and the object lives on. *)
Definition run (events : list Event) (c : RUDPConnection) : RUDPConnection :=
  foldl (fun c e => conn_of (step e c)) c events.

End Connection.

(** ** Invariants of a connection between two events *)

(** Every entry of the send window holds a pending delayed call for its
    own sequence number. *)
Definition armed (calls : list DelayedCall) (w : list (Z * ScheduledPacket)) : Prop :=
  Forall (fun e => exists dc, calls !! timeout_cb e.2 = Some dc /\
                              twisted.state dc = twisted.Pending /\
                              twisted.seqnum dc = e.1) w.

(** No two entries share a delayed call. *)
Definition distinct (w : list (Z * ScheduledPacket)) : Prop :=
  NoDup ((fun e => timeout_cb e.2) <$> w).

Record stable (WINDOW_SIZE : Z) (c : RUDPConnection) : Prop := {
  st_idle : connected c = false ->
            _sending_window c = [] \/
            odict.keys (_sending_window c) = [_next_sequence_number c];
  st_last : _sending_window c = [] \/
            _next_sequence_number c ∈ odict.keys (_sending_window c);
  st_le : Forall (fun k => k <= _next_sequence_number c)
                 (odict.keys (_sending_window c));
  st_sorted : StronglySorted Z.lt (odict.keys (_sending_window c));
  st_bound : 1 <= WINDOW_SIZE ->
             Z.of_nat (length (_sending_window c)) <= WINDOW_SIZE;
  st_ack : running (_looping_ack c) = false;
  st_receive : running (_looping_receive c) = false;
  st_stored : Forall (fun e => packet.sequence_number (rudp_packet e.2) = e.1)
                     (_sending_window c);
  st_sent : Forall (fun d => packet.sequence_number d.1 <= _next_sequence_number c)
                   (proto_sent c);
  st_nsn : 0 <= _next_sequence_number c;
  st_armed : armed (reactor_calls c) (_sending_window c);
  st_distinct : distinct (_sending_window c)
}.

(** While the looping sender runs there is room in the window and
    something to send. *)
Definition sending (WINDOW_SIZE : Z) (c : RUDPConnection) : Prop :=
  running (_looping_send c) = true ->
  connected c = true /\
  Z.of_nat (length (_sending_window c)) < WINDOW_SIZE /\
  _segment_queue c <> [] /\
  _sending_window c <> [].

Definition Inv (WINDOW_SIZE : Z) (c : RUDPConnection) : Prop :=
  stable WINDOW_SIZE c /\ sending WINDOW_SIZE c.

(** The states a connection goes through: those that a sequence of
    events produces from a freshly created connection. *)
Definition reachable (UDP_SAFE_SEGMENT_SIZE WINDOW_SIZE MAX_RETRANSMISSIONS : Z)
    (recursion_limit : nat) (c : RUDPConnection) : Prop :=
  exists initial_seqnum own_addr dest_addr relay_addr events,
    1 <= initial_seqnum < 2 ^ 16 - 1 /\
    c = run UDP_SAFE_SEGMENT_SIZE WINDOW_SIZE MAX_RETRANSMISSIONS recursion_limit
          events (__init__ initial_seqnum own_addr dest_addr relay_addr).

(** ** Notions used in the statements *)


(** The dispatch of an inbound packet, in the words of the
    specification. *)
Inductive Dispatch := ProcessFin | ProcessSyn | ProcessCasual | DropSilently.

Definition spec_dispatch (fin syn connected syn_handle_active : bool) : Dispatch :=
  if fin then
    if connected || negb syn_handle_active then ProcessFin else DropSilently
  else if syn && negb connected then ProcessSyn
  else if negb syn && connected then ProcessCasual
  else DropSilently.


(** The send window as seen on the wire: for each entry its key, and the
    SYN flag and payload of the stored packet. *)
Definition in_flight (c : RUDPConnection) : list (Z * bool * list byte) :=
  (fun e => (e.1, packet.syn (rudp_packet e.2), packet.payload (rudp_packet e.2)))
    <$> _sending_window c.

(** ** A concrete connection, for the examples *)

Module example.

Definition UDP_SAFE_SEGMENT_SIZE : Z := 4.
Definition WINDOW_SIZE : Z := 3.
Definition MAX_RETRANSMISSIONS : Z := 2.
Definition recursion_limit : nat := 8.

Definition here : Address := ("10.0.0.1"%string, 4000).
Definition peer : Address := ("10.0.0.2"%string, 5000).

Definition play : list Event -> RUDPConnection -> RUDPConnection :=
  run UDP_SAFE_SEGMENT_SIZE WINDOW_SIZE MAX_RETRANSMISSIONS recursion_limit.

(** A connection just created, with initial sequence number 5. *)
Definition fresh : RUDPConnection := __init__ 5 here peer None.

(** Packets from the peer. *)
Definition peer_syn : RUDPPacket := packet.mk 9 here peer [] 0 0 false true.
Definition peer_synack (ack : Z) : RUDPPacket := packet.mk 9 here peer [] 0 ack false true.
Definition peer_ack (ack : Z) : RUDPPacket := packet.mk 0 here peer [] 0 ack false false.
Definition peer_fin : RUDPPacket := packet.mk 0 here peer [] 0 0 true false.

Definition hi : list byte := list_byte_of_string "hi".
Definition alphabet : list byte := list_byte_of_string "abcdefghij".

(** Our SYN is in flight. *)
Definition syn_sent : RUDPConnection := play [SynHandle] fresh.

(** The peer's SYN arrived after ours went out: our SYNACK is in flight. *)
Definition synack_sent : RUDPConnection :=
  play [SynHandle; ReceivePacket peer_syn] fresh.

(** The peer's SYN arrived and a message was submitted before the
    one-shot call of [_send_syn] fired. *)
Definition early_message : RUDPConnection :=
  play [ReceivePacket peer_syn; SendMessage hi] fresh.

(** Shut down by the peer's FIN. *)
Definition closed : RUDPConnection :=
  play [SynHandle; ReceivePacket peer_fin] fresh.


(** The window entry of our SYN. *)
Definition syn_entry : ScheduledPacket :=
  mkScheduled (packet.mk 5 peer here [] 0 0 false true) twisted.PACKET_TIMEOUT 0 0.

End example.

(** ** The shape of the window and of the emissions *)

(** The loop of [_clear_sending_window] over the scheduled packets. *)
Definition sweep (calls : list DelayedCall) (l : list ScheduledPacket) : list DelayedCall :=
  foldl (fun calls sch_packet =>
           if active_in calls (timeout_cb sch_packet)
           then mark (timeout_cb sch_packet) twisted.Cancelled calls
           else calls) calls l.

(** [cancel()] on the pending timers of some window entries, in order. *)
Definition cancel_each (l : list (Z * ScheduledPacket)) (calls : list DelayedCall)
  : list DelayedCall :=
  foldl (fun calls e => mark (timeout_cb e.2) twisted.Cancelled calls) calls l.

(** The keys of the send window are consecutive integers that end at the
    last sequence number issued. *)
Definition contiguous (c : RUDPConnection) : Prop :=
  odict.keys (_sending_window c) =
    seqZ (_next_sequence_number c + 1 - Z.of_nat (length (_sending_window c)))
         (Z.of_nat (length (_sending_window c))).

(** A packet from [o] for [d]. *)
Definition addressed (o d : Address) (p : RUDPPacket) : Prop :=
  packet.dest_addr p = d /\ packet.source_addr p = o.

(** What the window, the emissions and the notifications of a connection
    from [o] to [d], relayed by [r], look like between two events. *)
Record shaped (MAX_RETRANSMISSIONS : Z) (o d r : Address) (c : RUDPConnection) : Prop := {
  sh_own : own_addr c = o;
  sh_dest : dest_addr c = d;
  sh_relay : relay_addr c = r;
  sh_pos : 1 <= _next_sequence_number c;
  sh_contig : contiguous c;
  sh_retries : Forall (fun e => 0 <= retries e.2 <= Z.max 0 MAX_RETRANSMISSIONS)
                      (_sending_window c);
  sh_window : Forall (fun e => addressed o d (rudp_packet e.2) /\
                               packet.fin (rudp_packet e.2) = false /\
                               0 < packet.sequence_number (rudp_packet e.2))
                     (_sending_window c);
  sh_sent : Forall (fun x => x.2 = r /\ addressed o d x.1 /\
                             (packet.fin x.1 = true <-> packet.sequence_number x.1 = 0))
                   (proto_sent c);
  sh_fins : length (List.filter (fun x => packet.fin x.1) (proto_sent c))
            = handler_shutdowns c;
  sh_received : handler_received c = []
}.

(** The fields that [shaped] reads. *)
Definition view (c : RUDPConnection) :=
  (own_addr c, dest_addr c, relay_addr c, _next_sequence_number c,
   _sending_window c, proto_sent c, handler_shutdowns c, handler_received c).

(** ** Further connections, for the examples *)

Module scenario.

(** A data packet from the peer that carries the sequence number expected
    after the peer's SYN. *)
Definition peer_data : RUDPPacket :=
  packet.mk 10 example.here example.peer (list_byte_of_string "yo") 0 0 false false.

(** Connected, with our SYNACK and one data packet in flight. *)
Definition two_in_flight : RUDPConnection :=
  example.play [SynHandle; ReceivePacket example.peer_syn; SendMessage example.hi]
               example.fresh.

(** As [example.early_message]; then our SYN took the place of the data
    packet in the window, and the connection was shut down: the timer of
    the data packet is still pending. *)
Definition stale : RUDPConnection :=
  example.play [ReceivePacket example.peer_syn; SendMessage example.hi;
                SynHandle; Shutdown] example.fresh.

(** Our SYN went out once. *)
Definition syn_on_wire : RUDPConnection :=
  example.play [SynHandle; DelayedSend 0] example.fresh.

End scenario.

(** * Properties *)

(** ** Lists *)

Lemma Forall_elem {A} {P : A -> Prop} {l : list A} (H : Forall P l) (x : A) :
  x ∈ l -> P x.
Proof. revert x. by apply Forall_forall. Qed.

Lemma foldl_snoc_app {A} (l k : list A) : foldl (fun q x => q ++ [x]) l k = l ++ k.
Proof.
  revert l. induction k as [|x k IH]; intros l; simpl; [by rewrite app_nil_r|].
  by rewrite IH, <- app_assoc.
Qed.

Lemma range2_lt a b : Forall (fun k => k < b) (py.range2 a b).
Proof.
  apply Forall_forall. intros k (i & Hi)%list_elem_of_lookup.
  apply lookup_seqZ in Hi. lia.
Qed.

(** ** Ordered dictionaries *)

Section OdictFacts.
Context {V : Type}.
Implicit Types (d : list (Z * V)) (k : Z) (v : V).

Lemma odict_get_None k d : odict.get k d = None <-> k ∉ odict.keys d.
Proof.
  unfold odict.keys. induction d as [|[k' v'] d IH]; simpl.
  - split; [intros _; apply not_elem_of_nil|done].
  - rewrite not_elem_of_cons. destruct (Z.eqb_spec k k') as [->|Hne].
    + split; [discriminate|intros [? _]; done].
    + rewrite IH. split; [by split|by intros [_ ?]].
Qed.

Lemma odict_get_Some_elem k v d : odict.get k d = Some v -> (k, v) ∈ d.
Proof.
  induction d as [|[k' v'] d IH]; simpl; [done|].
  destruct (Z.eqb_spec k k') as [->|]; [intros [= ->]; left|right; auto].
Qed.

Lemma odict_set_present k v d :
  k ∈ odict.keys d ->
  odict.keys (odict.set k v d) = odict.keys d /\
  length (odict.set k v d) = length d.
Proof.
  unfold odict.keys. induction d as [|[k' v'] d IH]; simpl.
  - intros H. by apply elem_of_nil in H.
  - intros H. destruct (Z.eqb_spec k k') as [->|Hne]; simpl; [done|].
    apply elem_of_cons in H as [?|H]; [done|].
    destruct (IH H) as [IH1 IH2]. split; f_equal; assumption.
Qed.

Lemma odict_set_absent k v d :
  k ∉ odict.keys d -> odict.set k v d = d ++ [(k, v)].
Proof.
  unfold odict.keys. induction d as [|[k' v'] d IH]; simpl; [done|].
  rewrite not_elem_of_cons. intros [Hne H].
  destruct (Z.eqb_spec k k'); [done|]. by rewrite IH.
Qed.

Lemma odict_get_set k k' v d :
  odict.get k' (odict.set k v d) = if k' =? k then Some v else odict.get k' d.
Proof.
  induction d as [|[k0 v0] d IH]; simpl.
  - destruct (Z.eqb_spec k' k); done.
  - destruct (Z.eqb_spec k k0) as [->|Hne]; simpl.
    + destruct (Z.eqb_spec k' k0); done.
    + destruct (Z.eqb_spec k' k0) as [->|]; [|done].
      destruct (Z.eqb_spec k0 k); [lia|done].
Qed.

Lemma odict_set_elem k v d x :
  x ∈ odict.set k v d -> x = (k, v) \/ x ∈ d.
Proof.
  induction d as [|[k0 v0] d IH]; simpl.
  - intros ->%list_elem_of_singleton. by left.
  - destruct (Z.eqb_spec k k0) as [->|Hne].
    + intros [->|?]%elem_of_cons; [by left|right; by right].
    + intros [->|H]%elem_of_cons; [right; left|].
      destruct (IH H); [by left|right; by right].
Qed.

Lemma odict_remove_sublist k d : odict.remove k d `sublist_of` d.
Proof.
  induction d as [|[k0 v0] d IH]; simpl; [done|].
  destruct (Z.eqb_spec k k0); [by apply sublist_cons|by apply sublist_skip].
Qed.

Lemma odict_remove_other k k' d :
  k' <> k -> k' ∈ odict.keys d -> k' ∈ odict.keys (odict.remove k d).
Proof.
  unfold odict.keys. intros Hne. induction d as [|[k0 v0] d IH]; simpl; [done|].
  intros [->|H]%elem_of_cons.
  - destruct (Z.eqb_spec k k0); [lia|left].
  - destruct (Z.eqb_spec k k0); [done|right; auto].
Qed.

End OdictFacts.


Section OdictOrder.
Context {V : Type}.
Implicit Types (d : list (Z * V)) (k : Z) (v : V).

Lemma odict_remove_Forall (P : Z * V -> Prop) k d :
  Forall P d -> Forall P (odict.remove k d).
Proof.
  induction 1 as [|[k0 v0] d HP Hd IH]; simpl; [constructor|].
  destruct (k =? k0); [done|by constructor].
Qed.

Lemma odict_remove_keys_Forall (P : Z -> Prop) k d :
  Forall P (odict.keys d) -> Forall P (odict.keys (odict.remove k d)).
Proof.
  unfold odict.keys. induction d as [|[k0 v0] d IH]; simpl; [done|].
  intros [HP Hd]%Forall_cons. destruct (k =? k0); [done|].
  simpl. constructor; auto.
Qed.

Lemma odict_remove_sorted k d :
  StronglySorted Z.lt (odict.keys d) ->
  StronglySorted Z.lt (odict.keys (odict.remove k d)).
Proof.
  unfold odict.keys. induction d as [|[k0 v0] d IH]; simpl; [done|].
  intros [Hlt Hd]%StronglySorted_cons. destruct (k =? k0); [done|].
  simpl. apply StronglySorted_cons. split; [|auto].
  by apply (odict_remove_keys_Forall (Z.lt k0)).
Qed.

Lemma odict_remove_length_le k d : (length (odict.remove k d) <= length d)%nat.
Proof.
  induction d as [|[k0 v0] d IH]; simpl; [done|].
  destruct (k =? k0); simpl; lia.
Qed.

Lemma odict_keys_snoc d k v : odict.keys (d ++ [(k, v)]) = odict.keys d ++ [k].
Proof. unfold odict.keys. by rewrite fmap_app. Qed.

Lemma sorted_snoc (l : list Z) k :
  StronglySorted Z.lt l -> Forall (fun k' => k' < k) l ->
  StronglySorted Z.lt (l ++ [k]).
Proof.
  intros Hl Hk. apply StronglySorted_app. split; [|split; [done|]].
  - intros x1 x2 H1 ->%list_elem_of_singleton.
    by apply (Forall_elem Hk).
  - repeat constructor.
Qed.

End OdictOrder.

(** ** Delayed calls of the window entries *)

Section Timers.
Implicit Types (calls : list DelayedCall) (w : list (Z * ScheduledPacket)).

Lemma armed_lt calls w e : armed calls w -> e ∈ w -> (timeout_cb e.2 < length calls)%nat.
Proof.
  intros Hw He. apply (Forall_elem Hw) in He as (dc & Hdc & _).
  by apply lookup_lt_Some in Hdc.
Qed.

Lemma armed_more calls l w : armed calls w -> armed (calls ++ l) w.
Proof.
  intros Hw. eapply Forall_impl; [exact Hw|]. simpl.
  intros e (dc & Hdc & ?). exists dc. split; [|done].
  by apply lookup_app_l_Some.
Qed.

Lemma armed_fresh calls w e : armed calls w -> e ∈ w -> timeout_cb e.2 <> length calls.
Proof. intros Hw He. pose proof (armed_lt _ _ _ Hw He). lia. Qed.

Lemma mark_lookup_ne id id' st calls : id <> id' -> mark id st calls !! id' = calls !! id'.
Proof.
  intros Hne. unfold mark. destruct (calls !! id); [|done].
  by apply list_lookup_insert_ne.
Qed.

Lemma mark_length id st calls : length (mark id st calls) = length calls.
Proof. unfold mark. destruct (calls !! id); [apply length_insert|done]. Qed.

Lemma armed_mark id st calls w :
  (forall e, e ∈ w -> timeout_cb e.2 <> id) -> armed calls w -> armed (mark id st calls) w.
Proof.
  intros Hid Hw. apply Forall_forall. intros e He.
  apply (Forall_elem Hw) in He as Hdc.
  destruct Hdc as (dc & Hdc & ?). exists dc. split; [|done].
  rewrite mark_lookup_ne; [done|]. intros E. by apply (Hid e He).
Qed.

Lemma armed_sub calls w w' : (forall e, e ∈ w' -> e ∈ w) -> armed calls w -> armed calls w'.
Proof.
  intros Hsub Hw. apply Forall_forall. intros e He.
  by apply (Forall_elem Hw), Hsub.
Qed.

Lemma distinct_remove k w : distinct w -> distinct (odict.remove k w).
Proof.
  unfold distinct. intros Hw. eapply sublist_NoDup; [exact Hw|].
  apply fmap_sublist, odict_remove_sublist.
Qed.

Lemma distinct_elem w e e' :
  distinct w -> e ∈ w -> e' ∈ w -> timeout_cb e.2 = timeout_cb e'.2 -> e = e'.
Proof.
  unfold distinct. induction w as [|x w IH]; simpl.
  - intros _ H. by apply elem_of_nil in H.
  - intros [Hx Hw]%NoDup_cons [->|He]%elem_of_cons [->|He']%elem_of_cons E; auto.
    + exfalso. apply Hx. rewrite E. by apply (list_elem_of_fmap_2 (fun e => timeout_cb e.2)).
    + exfalso. apply Hx. rewrite <- E. by apply (list_elem_of_fmap_2 (fun e => timeout_cb e.2)).
Qed.

Lemma distinct_set k v w :
  distinct w -> (forall e, e ∈ w -> timeout_cb e.2 <> timeout_cb v) ->
  distinct (odict.set k v w).
Proof.
  unfold distinct. induction w as [|[k0 v0] w IH]; simpl.
  - intros _ _. apply NoDup_singleton.
  - intros [Hx Hw]%NoDup_cons Hv. destruct (k =? k0); simpl.
    + apply NoDup_cons. split; [|done].
      intros (e & E & He)%list_elem_of_fmap. apply (Hv e); [by right|done].
    + apply NoDup_cons. split.
      * intros (e & E & He)%list_elem_of_fmap.
        apply odict_set_elem in He as [->|He].
        -- simpl in E. apply (Hv (k0, v0)); [left|done].
        -- apply Hx. rewrite E. by apply (list_elem_of_fmap_2 (fun e => timeout_cb e.2)).
      * apply IH; [done|]. intros e He. apply Hv. by right.
Qed.

Lemma odict_remove_elem {V} k (d : list (Z * V)) x : x ∈ odict.remove k d -> x ∈ d.
Proof. intros Hx. eapply elem_of_sublist; [exact Hx|apply odict_remove_sublist]. Qed.

Lemma odict_remove_elem_ne {V} k (d : list (Z * V)) x :
  StronglySorted Z.lt (odict.keys d) -> x ∈ odict.remove k d -> x.1 <> k.
Proof.
  unfold odict.keys. induction d as [|[k0 v0] d IH]; simpl.
  - intros _ H. by apply elem_of_nil in H.
  - intros [Hlt Hd]%StronglySorted_cons. destruct (Z.eqb_spec k k0) as [->|Hne].
    + intros Hx. apply (list_elem_of_fmap_2 fst) in Hx.
      apply (Forall_elem Hlt) in Hx. lia.
    + intros [->|Hx]%elem_of_cons; [simpl; lia|auto].
Qed.

Lemma odict_set_elem_ne {V} k v (d : list (Z * V)) x :
  StronglySorted Z.lt (odict.keys d) ->
  x ∈ odict.set k v d -> x = (k, v) \/ (x ∈ d /\ x.1 <> k).
Proof.
  unfold odict.keys. induction d as [|[k0 v0] d IH]; simpl.
  - intros _ ->%list_elem_of_singleton. by left.
  - intros [Hlt Hd]%StronglySorted_cons. destruct (Z.eqb_spec k k0) as [->|Hne].
    + intros [->|Hx]%elem_of_cons; [by left|right]. split; [by right|].
      apply (list_elem_of_fmap_2 fst) in Hx.
      apply (Forall_elem Hlt) in Hx. lia.
    + intros [->|Hx]%elem_of_cons; [right; split; [left|simpl; lia]|].
      destruct (IH Hd Hx) as [?|[? ?]]; [by left|right; split; [by right|done]].
Qed.

End Timers.

(** ** Every event keeps the invariant *)

Section Preservation.
Variables UDP_SAFE_SEGMENT_SIZE WINDOW_SIZE MAX_RETRANSMISSIONS : Z.
Variable recursion_limit : nat.

Local Abbreviation stable := (stable WINDOW_SIZE).
Local Abbreviation sending := (sending WINDOW_SIZE).
Local Abbreviation Inv := (Inv WINDOW_SIZE).

(** [stable] looks only at some of the fields. *)
Lemma stable_frame c c' :
  connected c' = connected c ->
  _next_sequence_number c' = _next_sequence_number c ->
  _sending_window c' = _sending_window c ->
  _looping_ack c' = _looping_ack c ->
  _looping_receive c' = _looping_receive c ->
  reactor_calls c' = reactor_calls c ->
  proto_sent c' = proto_sent c ->
  stable c -> stable c'.
Proof.
  intros E1 E2 E3 E4 E5 E6 E7 [].
  constructor; rewrite ?E1, ?E2, ?E3, ?E4, ?E5, ?E6, ?E7; assumption.
Qed.

Lemma fresh_key c :
  stable c -> _next_sequence_number c + 1 ∉ odict.keys (_sending_window c).
Proof.
  intros Hc Hin. apply (Forall_elem (st_le _ c Hc)) in Hin. lia.
Qed.

(** What a turn of the looping sender does to a connection whose
    segment queue is not empty. *)
Lemma dequeue_effect c more_fragments message rest :
  stable c ->
  _segment_queue c = (more_fragments, message) :: rest ->
  exists c' e,
    _dequeue_outbound_message WINDOW_SIZE c = Ok c' /\
    _next_sequence_number c' = _next_sequence_number c + 1 /\
    _sending_window c' = _sending_window c ++ [(_next_sequence_number c + 1, e)] /\
    rudp_packet e = packet.mk (_next_sequence_number c + 1) (dest_addr c) (own_addr c)
                      message more_fragments (_next_expected_seqnum c) false false /\
    retries e = 0 /\
    timeout_cb e = length (reactor_calls c) /\
    reactor_calls c' = reactor_calls c ++
      [twisted.mkCall twisted.Zero (_next_sequence_number c + 1) twisted.Pending] /\
    _segment_queue c' = rest /\
    connected c' = connected c /\
    proto_sent c' = proto_sent c /\
    _looping_ack c' = _looping_ack c /\
    _looping_receive c' = _looping_receive c /\
    handler_shutdowns c' = handler_shutdowns c /\
    running (_looping_send c') =
      running (_looping_send c)
      && negb ((Z.of_nat (length (_sending_window c')) >=? WINDOW_SIZE)
               || (Z.of_nat (length rest) =? 0)).
Proof.
  intros Hc Eq. pose proof (fresh_key c Hc) as Hfresh.
  unfold _dequeue_outbound_message, _schedule_send_in_order, _attempt_disabling_looping_send.
  rewrite Eq. simpl. rewrite (odict_set_absent _ _ _ Hfresh).
  eexists; eexists; split; [reflexivity|].
  destruct (running (_looping_send c)) eqn:Hrun; simpl; [|by repeat split].
  match goal with
  | |- context [?a >=? WINDOW_SIZE] => destruct (a >=? WINDOW_SIZE) eqn:E1
  end; simpl; rewrite ?E1; simpl; [by repeat split|].
  destruct (Z.of_nat (length rest) =? 0) eqn:E2; simpl; rewrite ?E1, ?E2; by repeat split.
Qed.

Lemma dequeue_inv c :
  stable c -> connected c = true ->
  Z.of_nat (length (_sending_window c)) < WINDOW_SIZE ->
  _segment_queue c <> [] ->
  exists c', _dequeue_outbound_message WINDOW_SIZE c = Ok c' /\ Inv c' /\
    connected c' = true /\
    _next_sequence_number c' = _next_sequence_number c + 1 /\
    proto_sent c' = proto_sent c /\
    _looping_ack c' = _looping_ack c /\
    handler_shutdowns c' = handler_shutdowns c /\
    length (_sending_window c') = S (length (_sending_window c)).
Proof.
  intros Hc Hconn Hroom Hq.
  destruct (_segment_queue c) as [|[mf msg] rest] eqn:Eq; [done|].
  destruct (dequeue_effect c mf msg rest Hc Eq)
    as (c' & e & Hok & En & Ew & Ep & Er & Ecb & Ecalls & Eq' & Ec & Eps & Ea & Erecv &
        Ehs & Erun).
  exists c'. split; [done|].
  assert (Hlen : length (_sending_window c') = S (length (_sending_window c))).
  { rewrite Ew, length_app. simpl. lia. }
  split; [|rewrite Ec; by repeat split].
  split.
  - destruct Hc. constructor; rewrite ?Ec, ?En, ?Ew, ?Ea, ?Erecv, ?Ecalls, ?Eps; try done.
    + by rewrite Hconn.
    + right. rewrite odict_keys_snoc. apply elem_of_app. right. left.
    + rewrite odict_keys_snoc. apply Forall_app. split.
      * eapply Forall_impl; [eassumption|]. simpl. lia.
      * repeat constructor. lia.
    + rewrite odict_keys_snoc. apply sorted_snoc; [done|].
      eapply Forall_impl; [eassumption|]. simpl. lia.
    + rewrite length_app. simpl. lia.
    + apply Forall_app. split; [done|]. repeat constructor. simpl. by rewrite Ep.
    + eapply Forall_impl; [eassumption|]. simpl. lia.
    + lia.
    + apply Forall_app. split; [by apply armed_more|].
      repeat constructor. simpl. rewrite Ecb. eexists.
      split; [by apply list_lookup_middle|done].
    + unfold distinct. rewrite fmap_app. apply NoDup_app. split; [done|]. split.
      * intros x (e' & -> & He')%list_elem_of_fmap E%list_elem_of_singleton.
        simpl in *. eapply armed_fresh; [eassumption..|]. congruence.
      * apply NoDup_singleton.
  - intros Hrun. rewrite Erun in Hrun.
    apply andb_true_iff in Hrun as [_ Hrun]. apply negb_true_iff, orb_false_iff in Hrun.
    destruct Hrun as [H1 H2]. rewrite Ec, Eq'.
    split; [done|]. split; [lia|]. split.
    + intros ->. simpl in H2. done.
    + rewrite Ew. intros E. by apply app_eq_nil in E as [_ ?].
Qed.

Lemma enabling_inv c :
  Inv c ->
  Inv (_attempt_enabling_looping_send WINDOW_SIZE c) /\
  connected (_attempt_enabling_looping_send WINDOW_SIZE c) = connected c /\
  _next_sequence_number c <= _next_sequence_number (_attempt_enabling_looping_send WINDOW_SIZE c) /\
  proto_sent (_attempt_enabling_looping_send WINDOW_SIZE c) = proto_sent c /\
  _looping_ack (_attempt_enabling_looping_send WINDOW_SIZE c) = _looping_ack c /\
  handler_shutdowns (_attempt_enabling_looping_send WINDOW_SIZE c) = handler_shutdowns c.
Proof.
  intros [Hst Hsend]. unfold _attempt_enabling_looping_send.
  assert (Hinv : Inv c) by exact (conj Hst Hsend).
  destruct (connected c) eqn:Hconn; simpl;
    [|split; [exact Hinv|repeat split; (done || lia)]].
  destruct (running (_looping_send c)) eqn:Hrun; simpl;
    [split; [exact Hinv|repeat split; (done || lia)]|].
  destruct (Z.ltb_spec (Z.of_nat (length (_sending_window c))) WINDOW_SIZE)
    as [Hroom|]; simpl; [|split; [exact Hinv|repeat split; (done || lia)]].
  destruct (Z.eqb_spec (Z.of_nat (length (_segment_queue c))) 0) as [|Hq]; simpl;
    [split; [exact Hinv|repeat split; (done || lia)]|].
  unfold loop_start, loop_call.
  set (c1 := set_looping_send _ c).
  destruct (dequeue_inv c1) as (c' & -> & Hinv' & ? & ? & ? & ? & ? & _).
  - eapply stable_frame; [..|exact Hst]; done.
  - done.
  - done.
  - simpl. intros E. rewrite E in Hq. done.
  - simpl in *. split; [exact Hinv'|repeat split; (done || lia)].
Qed.

Lemma shutdown_effect c :
  connected (shutdown c) = false /\
  _next_sequence_number (shutdown c) = _next_sequence_number c /\
  _sending_window (shutdown c) = [] /\
  running (_looping_send (shutdown c)) = false /\
  running (_looping_ack (shutdown c)) = false /\
  running (_looping_receive (shutdown c)) = false /\
  proto_sent (shutdown c) = proto_sent c ++ [(fin_packet c, relay_addr c)] /\
  handler_shutdowns (shutdown c) = S (handler_shutdowns c).
Proof.
  unfold shutdown, _send_fin, _schedule_send_out_of_order, _clear_sending_window.
  simpl.
  destruct (running (_looping_ack c)) eqn:E1; simpl;
    destruct (running (_looping_send c)) eqn:E2; simpl;
    destruct (running (_looping_receive c)) eqn:E3; simpl; done.
Qed.

Lemma shutdown_inv c :
  Forall (fun d => packet.sequence_number d.1 <= _next_sequence_number c) (proto_sent c) ->
  0 <= _next_sequence_number c ->
  Inv (shutdown c).
Proof.
  intros Hsent Hnsn.
  destruct (shutdown_effect c) as (E1 & E2 & E3 & E4 & E5 & E6 & E7 & E8).
  split.
  - constructor; rewrite ?E1, ?E2, ?E3, ?E5, ?E6, ?E7;
      try done; try (by left); try (by constructor); try (simpl; lia).
    apply Forall_app. split; [done|]. by repeat constructor.
  - intros E. congruence.
Qed.

(** Writing an entry under the last key issued, or into an empty window. *)
Lemma stable_set c c' k e :
  stable c ->
  k ∈ odict.keys (_sending_window c) \/
    (_sending_window c = [] /\ k = _next_sequence_number c) ->
  packet.sequence_number (rudp_packet e) = k ->
  _sending_window c' = odict.set k e (_sending_window c) ->
  connected c' = connected c ->
  _next_sequence_number c' = _next_sequence_number c ->
  _looping_ack c' = _looping_ack c ->
  _looping_receive c' = _looping_receive c ->
  Forall (fun d => packet.sequence_number d.1 <= _next_sequence_number c) (proto_sent c') ->
  armed (reactor_calls c') (odict.set k e (_sending_window c)) ->
  distinct (odict.set k e (_sending_window c)) ->
  stable c' /\
  length (_sending_window c') = Nat.max 1 (length (_sending_window c)).
Proof.
  intros Hc Hk He Ew Ec En Ea Er Hsent Harmed Hdistinct.
  assert (Hstored : Forall (fun e => packet.sequence_number (rudp_packet e.2) = e.1)
                           (odict.set k e (_sending_window c))).
  { apply Forall_forall. intros x [->|Hx]%odict_set_elem; [done|].
    by apply (Forall_elem (st_stored _ c Hc)). }
  destruct Hk as [Hk|[Hw ->]].
  - destruct (odict_set_present k e _ Hk) as [Ekeys Elen].
    assert (length (_sending_window c) <> 0%nat).
    { destruct (_sending_window c); [|done]. by apply elem_of_nil in Hk. }
    split; [|rewrite Ew, Elen; lia].
    destruct Hc as [Hidle Hlast ? ? ? ? ? ? ? ? ? ?].
    constructor; rewrite ?Ew, ?Ec, ?En, ?Ea, ?Er, ?Ekeys, ?Elen; try done.
    + intros Hconn. right. destruct (Hidle Hconn) as [E|E]; [|done].
      rewrite E in Hk. by apply elem_of_nil in Hk.
    + right. destruct Hlast as [E|E]; [|done].
      rewrite E in Hk. by apply elem_of_nil in Hk.
  - rewrite Hw in *. simpl in *. split; [|by rewrite Ew].
    destruct Hc. constructor; rewrite ?Ew, ?Ec, ?En, ?Ea, ?Er; simpl;
      first [done | by right | by (right; left) | by repeat constructor | lia].
Qed.

Lemma schedule_armed calls w k e d :
  armed calls w -> timeout_cb e = length calls ->
  armed (calls ++ [twisted.mkCall d k twisted.Pending]) (odict.set k e w).
Proof.
  intros Hw Hcb. apply Forall_forall. intros x [->|Hx]%odict_set_elem.
  - simpl. rewrite Hcb. eexists. split; [by apply list_lookup_middle|done].
  - apply (Forall_elem (armed_more _ [_] _ Hw)). done.
Qed.

Lemma schedule_distinct calls w k e :
  armed calls w -> distinct w -> timeout_cb e = length calls ->
  distinct (odict.set k e w).
Proof.
  intros Hw Hd Hcb. apply distinct_set; [done|].
  intros x Hx. rewrite Hcb. by eapply armed_fresh.
Qed.

Lemma send_syn_inv c :
  Inv c ->
  Inv (_send_syn c) /\
  length (_sending_window (_send_syn c)) = Nat.max 1 (length (_sending_window c)) /\
  connected (_send_syn c) = connected c /\
  _next_sequence_number (_send_syn c) = _next_sequence_number c /\
  proto_sent (_send_syn c) = proto_sent c /\
  handler_shutdowns (_send_syn c) = handler_shutdowns c.
Proof.
  intros [Hst Hsend]. unfold _send_syn, _schedule_send_in_order. simpl.
  set (e := mkScheduled _ _ _ _).
  set (c' := mkConn _ _ _ _ _ _ _ _ _ _ _ _ _ _ _ _ _).
  assert (Hk : _next_sequence_number c ∈ odict.keys (_sending_window c) \/
               (_sending_window c = [] /\ _next_sequence_number c = _next_sequence_number c)).
  { destruct (st_last _ c Hst); [right|left]; done. }
  destruct (stable_set c c' (_next_sequence_number c) e Hst Hk) as [Hst' Hlen];
    try done.
  - apply (st_sent _ c Hst).
  - apply schedule_armed; [apply (st_armed _ c Hst)|done].
  - eapply schedule_distinct; [apply (st_armed _ c Hst)|apply (st_distinct _ c Hst)|done].
  - split; [split; [exact Hst'|]|by repeat split].
    intros Hrun. destruct (Hsend Hrun) as (? & ? & ? & Hne).
    split; [done|]. split; [|split; [done|]].
    + rewrite Hlen. destruct (_sending_window c); [done|simpl in *; lia].
    + intros E. rewrite E in Hlen. simpl in Hlen. lia.
Qed.

Lemma reset_ack_idle t c :
  running (_looping_ack c) = false -> _reset_ack_timeout recursion_limit t c = c.
Proof. intros E. unfold _reset_ack_timeout, reset_ack_timeout_with. by rewrite E. Qed.

Lemma get_in_keys {V} k (v : V) d : odict.get k d = Some v -> k ∈ odict.keys d.
Proof.
  intros E. destruct (decide (k ∈ odict.keys d)) as [|Hn]; [done|].
  apply odict_get_None in Hn. congruence.
Qed.

Lemma fire_delayed_send_inv id c :
  Inv c ->
  Inv (conn_of (fire_delayed_send MAX_RETRANSMISSIONS recursion_limit id c)) /\
  _next_sequence_number (conn_of (fire_delayed_send MAX_RETRANSMISSIONS recursion_limit id c))
    = _next_sequence_number c.
Proof.
  intros [Hst Hsend]. unfold fire_delayed_send.
  destruct (reactor_calls c !! id) as [dc|] eqn:Hid; [|done].
  destruct (twisted.active (twisted.state dc)) eqn:Hact; [|done].
  unfold _do_send_packet. simpl.
  assert (Hother : forall x, x ∈ _sending_window c -> x.1 <> twisted.seqnum dc ->
                             timeout_cb x.2 <> id).
  { intros x Hx Hne E.
    apply (Forall_elem (st_armed _ c Hst)) in Hx as (dc' & Hdc' & _ & Hseq).
    rewrite E, Hid in Hdc'. congruence. }
  destruct (odict.get (twisted.seqnum dc) (_sending_window c)) as [sch|] eqn:Hget; simpl.
  - pose proof (get_in_keys _ _ _ Hget) as Hk.
    pose proof (odict_get_Some_elem _ _ _ Hget) as Hin.
    destruct (retries sch >=? MAX_RETRANSMISSIONS).
    + cbn [conn_of]. split; [apply shutdown_inv; simpl|].
      * apply (st_sent _ c Hst).
      * apply (st_nsn _ c Hst).
      * by destruct (shutdown_effect (mark_call id twisted.Called c)) as (_ & -> & _).
    + simpl. rewrite reset_ack_idle by (simpl; apply (st_ack _ c Hst)).
      simpl. split; [|done].
      set (e := mkScheduled _ _ _ _).
      set (c' := mkConn _ _ _ _ _ _ _ _ _ _ _ _ _ _ _ _ _).
      destruct (stable_set c c' (twisted.seqnum dc) e Hst (or_introl Hk)) as [Hst' Hlen];
        try done.
      * by apply (Forall_elem (st_stored _ c Hst)) in Hin.
      * simpl. apply Forall_app. split; [apply (st_sent _ c Hst)|].
        repeat constructor. simpl.
        apply (Forall_elem (st_stored _ c Hst)) in Hin. simpl in Hin.
        rewrite Hin.
        by apply (Forall_elem (st_le _ c Hst)) in Hk.
      * simpl. apply Forall_forall.
        intros x [->|[Hx Hne]]%odict_set_elem_ne; [|..|apply (st_sorted _ c Hst)].
        -- simpl. eexists. split; [by apply list_lookup_middle|done].
        -- pose proof (Hother x Hx Hne) as Hcb.
           apply (Forall_elem (st_armed _ c Hst)) in Hx as (dc' & Hdc' & ?).
           exists dc'. split; [|done]. apply lookup_app_l_Some.
           by rewrite mark_lookup_ne.
      * apply distinct_set; [apply (st_distinct _ c Hst)|].
        intros x Hx. simpl. rewrite mark_length.
        eapply armed_fresh; [apply (st_armed _ c Hst)|done].
      * split; [exact Hst'|]. intros Hrun.
        destruct (Hsend Hrun) as (? & ? & ? & Hne).
        split; [done|]. split; [|split; [done|]].
        -- rewrite Hlen. destruct (_sending_window c); [done|simpl in *; lia].
        -- intros E. rewrite E in Hlen. simpl in Hlen. lia.
  - split; [|done]. split; [|exact Hsend].
    destruct Hst. constructor; simpl; try done.
    apply armed_mark; [|done]. intros x Hx.
    destruct (decide (x.1 = twisted.seqnum dc)) as [E|Hne]; [|by apply Hother].
    exfalso. apply (list_elem_of_fmap_2 fst) in Hx. rewrite E in Hx.
    apply odict_get_None in Hget. done.
Qed.

(** [Inv] looks only at some of the fields. *)
Lemma Inv_frame c c' :
  connected c' = connected c ->
  _next_sequence_number c' = _next_sequence_number c ->
  _segment_queue c' = _segment_queue c ->
  _sending_window c' = _sending_window c ->
  _looping_send c' = _looping_send c ->
  _looping_ack c' = _looping_ack c ->
  _looping_receive c' = _looping_receive c ->
  reactor_calls c' = reactor_calls c ->
  proto_sent c' = proto_sent c ->
  Inv c -> Inv c'.
Proof.
  intros E1 E2 E3 E4 E5 E6 E7 E8 E9 [Hst Hsend]. split.
  - by apply (stable_frame c c').
  - unfold sending. by rewrite E1, E3, E4, E5.
Qed.

Lemma cancel_armed c k sch :
  armed (reactor_calls c) (_sending_window c) ->
  (k, sch) ∈ _sending_window c ->
  forall c', reactor_calls c' = reactor_calls c ->
    call_cancel (timeout_cb sch) c' = Ok (mark_call (timeout_cb sch) twisted.Cancelled c').
Proof.
  intros Harmed Hin c' E.
  apply (Forall_elem Harmed) in Hin as (dc & Hdc & Hp & _).
  unfold call_cancel. simpl in Hdc. by rewrite E, Hdc, Hp.
Qed.

(** One turn of the loop that retires acknowledged packets. *)
Lemma retire_one_inv c k sch :
  Inv c ->
  odict.get k (_sending_window c) = Some sch ->
  k < _next_sequence_number c ->
  let c' := mark_call (timeout_cb sch) twisted.Cancelled
              (set_sending_window (odict.remove k (_sending_window c)) c) in
  Inv c'.
Proof.
  intros [Hst Hsend] Hget Hk c'.
  pose proof (get_in_keys _ _ _ Hget) as Hkey.
  pose proof (odict_get_Some_elem _ _ _ Hget) as Hin.
  assert (Hnsn : _next_sequence_number c ∈ odict.keys (_sending_window c)).
  { destruct (st_last _ c Hst) as [E|]; [|done].
    rewrite E in Hkey. by apply elem_of_nil in Hkey. }
  assert (Hlast : _next_sequence_number c ∈
                  odict.keys (odict.remove k (_sending_window c))).
  { apply odict_remove_other; [lia|done]. }
  split.
  - destruct Hst as [Hidle ? ? Hsorted ? ? ? ? ? ? Harmed Hdistinct].
    constructor; subst c'; simpl; try done.
    + intros Hconn. destruct (Hidle Hconn) as [E|E].
      * rewrite E in Hkey. by apply elem_of_nil in Hkey.
      * rewrite E in Hkey. apply list_elem_of_singleton in Hkey. lia.
    + by right.
    + by apply odict_remove_keys_Forall.
    + by apply odict_remove_sorted.
    + pose proof (odict_remove_length_le k (_sending_window c)). lia.
    + by apply odict_remove_Forall.
    + apply armed_mark.
      * intros x Hx E. pose proof (odict_remove_elem_ne _ _ _ Hsorted Hx) as Hne.
        apply odict_remove_elem in Hx.
        pose proof (distinct_elem _ x (k, sch) Hdistinct Hx Hin E) as ->. done.
      * eapply armed_sub; [|exact Harmed]. intros x. apply odict_remove_elem.
    + by apply distinct_remove.
  - intros Hrun. destruct (Hsend Hrun) as (? & ? & ? & ?). subst c'. simpl in *.
    split; [done|]. split; [|split; [done|]].
    + pose proof (odict_remove_length_le k (_sending_window c)). lia.
    + intros E. rewrite E in Hlast. by apply elem_of_nil in Hlast.
Qed.

Lemma retire_each_inv l c :
  Forall (fun k => k < _next_sequence_number c) l ->
  Inv c ->
  Inv (conn_of (retire_each l c)) /\
  _next_sequence_number (conn_of (retire_each l c)) = _next_sequence_number c /\
  connected (conn_of (retire_each l c)) = connected c.
Proof.
  revert c. induction l as [|k l IH]; intros c Hl Hc; [done|].
  apply Forall_cons in Hl as [Hk Hl]. simpl.
  destruct (odict.get k (_sending_window c)) as [sch|] eqn:Hget; [|done].
  rewrite (cancel_armed c k sch); [|apply (st_armed _ c (proj1 Hc))|
    by apply odict_get_Some_elem|done].
  cbn [and_then].
  pose proof (retire_one_inv c k sch Hc Hget Hk) as Hc'. cbv zeta in Hc'.
  match type of Hc' with Inv ?c1 =>
    destruct (IH c1 Hl Hc') as (H1 & H2 & H3) end.
  split; [exact H1|]. split; [exact H2|exact H3].
Qed.

Lemma retire_inv acknum c :
  Inv c ->
  Inv (conn_of (_retire_packets_with_seqnum_up_to WINDOW_SIZE acknum c)) /\
  _next_sequence_number c <=
    _next_sequence_number (conn_of (_retire_packets_with_seqnum_up_to WINDOW_SIZE acknum c)) /\
  connected (conn_of (_retire_packets_with_seqnum_up_to WINDOW_SIZE acknum c)) = connected c.
Proof.
  intros Hc. unfold _retire_packets_with_seqnum_up_to.
  destruct (odict.keys (_sending_window c)) as [|lowest keys'];
    [split; [done|split; [simpl; lia|done]]|].
  set (seqnums := py.range2 _ _).
  destruct (retire_each_inv seqnums c) as (H1 & H2 & H3); [|done|].
  { eapply Forall_impl; [apply range2_lt|]. simpl. lia. }
  destruct (retire_each seqnums c) as [c1|e c1]; simpl in *; [|split; [done|split; [lia|done]]].
  destruct (_ <? _); simpl; [|split; [done|split; [lia|done]]].
  destruct (enabling_inv c1 H1) as (? & ? & ? & _).
  split; [done|]. split; [lia|congruence].
Qed.

Lemma process_casual_inv p c :
  Inv c ->
  Inv (conn_of (_process_casual_packet WINDOW_SIZE recursion_limit p c)) /\
  _next_sequence_number c <=
    _next_sequence_number (conn_of (_process_casual_packet WINDOW_SIZE recursion_limit p c)).
Proof.
  intros Hc. unfold _process_casual_packet.
  set (r := if _ && _ then _ else _).
  assert (Hr : Inv (conn_of r) /\ _next_sequence_number c <= _next_sequence_number (conn_of r)).
  { subst r. destruct (_ && _); [|split; [done|simpl; lia]].
    destruct (retire_inv (packet.ack p) c Hc) as (? & ? & ?). done. }
  destruct r as [c1|e c1]; simpl in *; [|done].
  destruct Hr as [Hc1 Hle].
  destruct (_ >? 0); simpl; [|done].
  destruct (_ =? _); simpl; [|split; [|done]].
  - rewrite reset_ack_idle by (simpl; apply (st_ack _ c1 (proj1 Hc1))).
    simpl. split; [|done]. eapply Inv_frame; [..|exact Hc1]; done.
  - eapply Inv_frame; [..|exact Hc1]; done.
Qed.

Lemma process_syn_inv p c :
  Inv c -> connected c = false ->
  Inv (conn_of (_process_syn_packet WINDOW_SIZE p c)) /\
  _next_sequence_number c <=
    _next_sequence_number (conn_of (_process_syn_packet WINDOW_SIZE p c)).
Proof.
  intros Hc Hconn. unfold _process_syn_packet.
  destruct (packet.ack p >? 0).
  - destruct (_sending_window c) as [|[k sch] w] eqn:Hw; simpl; [split; [done|lia]|].
    destruct (packet.ack p =? k + 1); [|split; [done|simpl; lia]].
    rewrite Z.eqb_refl.
    destruct (st_idle _ c (proj1 Hc) Hconn) as [E|E]; [congruence|].
    rewrite Hw in E. simpl in E. injection E as -> Ew.
    apply fmap_nil_inv in Ew. subst w.
    rewrite (cancel_armed c (_next_sequence_number c) sch);
      [|apply (st_armed _ c (proj1 Hc))|rewrite Hw; left|done].
    cbn [and_then]. simpl.
    set (c1 := mkConn _ _ _ _ _ _ _ _ _ _ _ _ _ _ _ _ _).
    assert (Hc1 : Inv c1).
    { destruct Hc as [[] Hsend]. split.
      - constructor; subst c1; simpl; try done; try (by left); try constructor.
        lia.
      - intros Hrun. subst c1. simpl in *. destruct (Hsend Hrun). congruence. }
    destruct (enabling_inv c1 Hc1) as (? & ? & ? & _). done.
  - simpl. set (c1 := _clear_sending_window _).
    assert (Hc1 : Inv c1 /\ connected c1 = false /\
              _next_sequence_number c1 = _next_sequence_number c).
    { split; [|done]. destruct Hc as [[] Hsend]. split.
      - constructor; subst c1; simpl; try done; try (by left); try constructor.
        lia.
      - intros Hrun. subst c1. simpl in *. destruct (Hsend Hrun). congruence. }
    destruct Hc1 as (Hc1 & Hconn1 & Hn1).
    set (c2 := if negb _ then _ else _).
    assert (Hc2 : Inv c2 /\ connected c2 = false /\
              _next_sequence_number c2 = _next_sequence_number c).
    { subst c2. destruct (negb _); [|done].
      destruct (send_syn_inv c1 Hc1) as (? & _ & ? & ? & _).
      split; [done|]. split; congruence. }
    destruct Hc2 as ([Hst2 Hsend2] & Hconn2 & Hn2). split; [|simpl; lia].
    split.
    + destruct Hst2. constructor; simpl; done.
    + intros Hrun. simpl in *. destruct (Hsend2 Hrun). congruence.
Qed.

Lemma receive_packet_inv p c :
  Inv c ->
  Inv (conn_of (receive_packet WINDOW_SIZE recursion_limit p c)) /\
  _next_sequence_number c <=
    _next_sequence_number (conn_of (receive_packet WINDOW_SIZE recursion_limit p c)).
Proof.
  intros Hc. unfold receive_packet, _process_fin_packet.
  destruct (packet.fin p).
  { destruct (_ || _); [|split; [done|simpl; lia]]. cbn [conn_of]. split.
    - apply shutdown_inv; [apply (st_sent _ c (proj1 Hc))|apply (st_nsn _ c (proj1 Hc))].
    - destruct (shutdown_effect c) as (_ & -> & _). lia. }
  destruct (packet.syn p).
  { destruct (connected c) eqn:Hconn; simpl; [split; [done|lia]|].
    by apply process_syn_inv. }
  destruct (connected c); [|split; [done|simpl; lia]].
  by apply process_casual_inv.
Qed.

Lemma send_message_inv message c :
  Inv c ->
  Inv (conn_of (send_message UDP_SAFE_SEGMENT_SIZE WINDOW_SIZE message c)) /\
  _next_sequence_number c <=
    _next_sequence_number (conn_of (send_message UDP_SAFE_SEGMENT_SIZE WINDOW_SIZE message c)).
Proof.
  intros [Hst Hsend]. unfold send_message.
  destruct (_gen_segments _ _) as [segments|]; [|split; [done|simpl; lia]].
  cbn [conn_of]. rewrite foldl_snoc_app.
  set (c1 := set_segment_queue _ c).
  assert (Hc1 : Inv c1).
  { split; [by apply (stable_frame c c1)|].
    intros Hrun. destruct (Hsend Hrun) as (? & ? & Hq & ?).
    subst c1. simpl. repeat split; try done.
    intros [E _]%app_eq_nil. done. }
  destruct (enabling_inv c1 Hc1) as (? & ? & ? & _). done.
Qed.

Lemma fire_syn_handle_inv c :
  Inv c ->
  Inv (fire_syn_handle c) /\
  _next_sequence_number (fire_syn_handle c) = _next_sequence_number c.
Proof.
  intros Hc. unfold fire_syn_handle.
  destruct (twisted.active (_syn_handle c)); [|done].
  set (c1 := set_syn_handle _ c).
  assert (Hc1 : Inv c1) by (eapply Inv_frame; [..|exact Hc]; done).
  destruct (send_syn_inv c1 Hc1) as (? & _ & _ & ? & _). done.
Qed.

Lemma looping_send_inv c :
  Inv c ->
  Inv (turn _looping_send set_looping_send (_dequeue_outbound_message WINDOW_SIZE) c) /\
  _next_sequence_number c <=
    _next_sequence_number
      (turn _looping_send set_looping_send (_dequeue_outbound_message WINDOW_SIZE) c).
Proof.
  intros [Hst Hsend]. unfold turn, loop_call.
  destruct (running (_looping_send c)) eqn:Hrun; [|split; [done|lia]].
  destruct (Hsend Hrun) as (? & ? & ? & ?).
  destruct (dequeue_inv c) as (c' & -> & ? & ? & ? & _); try done.
  split; [done|lia].
Qed.

Lemma step_inv e c :
  Inv c ->
  Inv (conn_of (step UDP_SAFE_SEGMENT_SIZE WINDOW_SIZE MAX_RETRANSMISSIONS
                     recursion_limit e c)) /\
  _next_sequence_number c <=
    _next_sequence_number
      (conn_of (step UDP_SAFE_SEGMENT_SIZE WINDOW_SIZE MAX_RETRANSMISSIONS
                     recursion_limit e c)).
Proof.
  intros Hc. destruct e; cbn [step conn_of].
  - by apply send_message_inv.
  - by apply receive_packet_inv.
  - split.
    + apply shutdown_inv; [apply (st_sent _ c (proj1 Hc))|apply (st_nsn _ c (proj1 Hc))].
    + destruct (shutdown_effect c) as (_ & -> & _). lia.
  - destruct (fire_syn_handle_inv c Hc) as [? ->]. split; [done|lia].
  - destruct (fire_delayed_send_inv id c Hc) as [? ->]. split; [done|lia].
  - by apply looping_send_inv.
  - unfold turn. rewrite (st_ack _ c (proj1 Hc)). split; [done|lia].
  - unfold turn. rewrite (st_receive _ c (proj1 Hc)). split; [done|lia].
Qed.

Lemma init_inv n0 own dest relay : 0 <= n0 -> Inv (__init__ n0 own dest relay).
Proof.
  intros Hn. split.
  - constructor; simpl; try done; try (by left); try constructor. lia.
  - intros E. done.
Qed.

Lemma run_inv events c :
  Inv c ->
  Inv (run UDP_SAFE_SEGMENT_SIZE WINDOW_SIZE MAX_RETRANSMISSIONS recursion_limit events c) /\
  _next_sequence_number c <=
    _next_sequence_number
      (run UDP_SAFE_SEGMENT_SIZE WINDOW_SIZE MAX_RETRANSMISSIONS recursion_limit events c).
Proof.
  revert c. induction events as [|e events IH]; intros c Hc; [split; [done|simpl; lia]|].
  destruct (step_inv e c Hc) as [Hc' Hle].
  destruct (IH _ Hc') as [? ?]. simpl. split; [done|]. unfold run in *. lia.
Qed.

Lemma reachable_inv c :
  reachable UDP_SAFE_SEGMENT_SIZE WINDOW_SIZE MAX_RETRANSMISSIONS recursion_limit c ->
  Inv c.
Proof.
  intros (n0 & own & dest & relay & events & Hn & ->).
  apply run_inv, init_inv. lia.
Qed.

End Preservation.

(** ** Fields that the methods leave alone *)

Section Frame.
Variables UDP_SAFE_SEGMENT_SIZE WINDOW_SIZE MAX_RETRANSMISSIONS : Z.
Variable recursion_limit : nat.

Lemma dequeue_ack c :
  _looping_ack (conn_of (_dequeue_outbound_message WINDOW_SIZE c)) = _looping_ack c.
Proof.
  unfold _dequeue_outbound_message, _schedule_send_in_order, _attempt_disabling_looping_send.
  destruct (_segment_queue c) as [|[mf msg] rest]; [done|]. simpl.
  by destruct (_ && _).
Qed.

Lemma enabling_ack c :
  _looping_ack (_attempt_enabling_looping_send WINDOW_SIZE c) = _looping_ack c.
Proof.
  unfold _attempt_enabling_looping_send, loop_start, loop_call.
  destruct (_ && _); [|done].
  set (c1 := set_looping_send _ c).
  pose proof (dequeue_ack c1) as E.
  by destruct (_dequeue_outbound_message WINDOW_SIZE c1).
Qed.

Lemma dequeue_sent c :
  proto_sent (conn_of (_dequeue_outbound_message WINDOW_SIZE c)) = proto_sent c.
Proof.
  unfold _dequeue_outbound_message, _schedule_send_in_order, _attempt_disabling_looping_send.
  destruct (_segment_queue c) as [|[mf msg] rest]; [done|]. simpl.
  by destruct (_ && _).
Qed.

Lemma enabling_sent c :
  proto_sent (_attempt_enabling_looping_send WINDOW_SIZE c) = proto_sent c.
Proof.
  unfold _attempt_enabling_looping_send, loop_start, loop_call.
  destruct (_ && _); [|done].
  set (c1 := set_looping_send _ c).
  pose proof (dequeue_sent c1) as E.
  by destruct (_dequeue_outbound_message WINDOW_SIZE c1).
Qed.

Lemma send_message_ack m c :
  _looping_ack (conn_of (send_message UDP_SAFE_SEGMENT_SIZE WINDOW_SIZE m c)) = _looping_ack c.
Proof.
  unfold send_message. destruct (_gen_segments _ _); [|done].
  cbn [conn_of]. by rewrite enabling_ack.
Qed.

Lemma cancel_ack id c : _looping_ack (conn_of (call_cancel id c)) = _looping_ack c.
Proof.
  unfold call_cancel. destruct (reactor_calls c !! id) as [dc|]; [|done].
  by destruct (twisted.state dc).
Qed.

Lemma retire_each_ack l c : _looping_ack (conn_of (retire_each l c)) = _looping_ack c.
Proof.
  revert c. induction l as [|k l IH]; intros c; [done|]. cbn [retire_each].
  destruct (odict.get k (_sending_window c)) as [sch|]; [|done]. cbv zeta.
  set (c1 := set_sending_window _ c).
  pose proof (cancel_ack (timeout_cb sch) c1) as E.
  destruct (call_cancel (timeout_cb sch) c1) as [c2|e c2]; simpl in *; [|done].
  by rewrite IH.
Qed.

Lemma retire_ack acknum c :
  _looping_ack (conn_of (_retire_packets_with_seqnum_up_to WINDOW_SIZE acknum c))
  = _looping_ack c.
Proof.
  unfold _retire_packets_with_seqnum_up_to.
  destruct (odict.keys (_sending_window c)) as [|lowest keys']; [done|].
  set (seqnums := py.range2 _ _). pose proof (retire_each_ack seqnums c) as E.
  destruct (retire_each seqnums c) as [c1|e c1]; simpl in *; [|done].
  destruct (_ <? _); simpl; [|done]. by rewrite enabling_ack.
Qed.

Lemma process_casual_ack p c :
  running (_looping_ack c) = false ->
  running (_looping_ack (conn_of (_process_casual_packet WINDOW_SIZE recursion_limit p c)))
  = false.
Proof.
  intros Hoff. unfold _process_casual_packet.
  set (r := if _ && _ then _ else _).
  assert (Hr : _looping_ack (conn_of r) = _looping_ack c).
  { subst r. destruct (_ && _); [apply retire_ack|done]. }
  destruct r as [c1|e c1]; simpl in *; [|congruence].
  destruct (_ >? 0); simpl; [|congruence].
  destruct (_ =? _); simpl; [|congruence].
  rewrite reset_ack_idle by (simpl; congruence). simpl. congruence.
Qed.

Lemma shutdown_ack c : running (_looping_ack (shutdown c)) = false.
Proof. by destruct (shutdown_effect c) as (_ & _ & _ & _ & ? & _). Qed.

Lemma process_syn_ack p c :
  _looping_ack (conn_of (_process_syn_packet WINDOW_SIZE p c)) = _looping_ack c.
Proof.
  unfold _process_syn_packet. destruct (_ >? 0).
  - destruct (odict.keys (_sending_window c)) as [|lowest keys']; [done|].
    destruct (_ =? _); [|done].
    destruct (odict.get lowest (_sending_window c)) as [sch|]; [|done].
    set (c1 := set_sending_window _ c).
    pose proof (cancel_ack (timeout_cb sch) c1) as E.
    destruct (call_cancel (timeout_cb sch) c1) as [c2|e c2]; simpl in *; [|done].
    by rewrite enabling_ack.
  - simpl. by destruct (negb _).
Qed.

Lemma receive_packet_ack p c :
  running (_looping_ack c) = false ->
  running (_looping_ack (conn_of (receive_packet WINDOW_SIZE recursion_limit p c))) = false.
Proof.
  intros Hoff. unfold receive_packet, _process_fin_packet.
  destruct (packet.fin p).
  { destruct (_ || _); [apply shutdown_ack|done]. }
  destruct (packet.syn p).
  { destruct (negb _); [|done]. by rewrite process_syn_ack. }
  destruct (connected c); [|done]. by apply process_casual_ack.
Qed.

Lemma fire_delayed_send_ack id c :
  running (_looping_ack c) = false ->
  running (_looping_ack (conn_of (fire_delayed_send MAX_RETRANSMISSIONS recursion_limit id c)))
  = false.
Proof.
  intros Hoff. unfold fire_delayed_send, _do_send_packet.
  destruct (reactor_calls c !! id) as [dc|]; [|done].
  destruct (twisted.active _); [|done]. simpl.
  destruct (odict.get _ _) as [sch|]; [|done].
  destruct (_ >=? _); [apply shutdown_ack|].
  simpl. by rewrite reset_ack_idle.
Qed.

Lemma pop_received_ack c :
  running (_looping_ack c) = false ->
  running (_looping_ack (conn_of (_pop_received_packet recursion_limit c))) = false.
Proof.
  intros Hoff. unfold _pop_received_packet.
  destruct (heap.attempt_popping_all_fragments _) as [[fragments rest]|]; [|done].
  simpl. destruct (_ <=? _); [|done]. by rewrite reset_ack_idle.
Qed.

Lemma turn_ack get put f c :
  (forall c l, _looping_ack (put l c) = _looping_ack c) ->
  (forall c, running (_looping_ack c) = false ->
             running (_looping_ack (conn_of (f c))) = false) ->
  running (_looping_ack c) = false ->
  running (_looping_ack (turn get put f c)) = false.
Proof.
  intros Hput Hf Hoff. unfold turn, loop_call. destruct (running (get c)); [|done].
  specialize (Hf c Hoff). destruct (f c); simpl in *; [done|]. by rewrite Hput.
Qed.

Lemma step_ack e c :
  running (_looping_ack c) = false ->
  running (_looping_ack (conn_of (step UDP_SAFE_SEGMENT_SIZE WINDOW_SIZE
                                       MAX_RETRANSMISSIONS recursion_limit e c))) = false.
Proof.
  intros Hoff. destruct e; cbn [step conn_of].
  - by rewrite send_message_ack.
  - by apply receive_packet_ack.
  - apply shutdown_ack.
  - unfold fire_syn_handle. by destruct (twisted.active _).
  - by apply fire_delayed_send_ack.
  - apply turn_ack; [done| |done]. intros c' Hc'. by rewrite dequeue_ack.
  - unfold turn. by rewrite Hoff.
  - apply turn_ack; [done| |done]. apply pop_received_ack.
Qed.

Lemma run_ack events c :
  running (_looping_ack c) = false ->
  running (_looping_ack (run UDP_SAFE_SEGMENT_SIZE WINDOW_SIZE MAX_RETRANSMISSIONS
                             recursion_limit events c)) = false.
Proof.
  revert c. induction events as [|e events IH]; intros c Hoff; [done|].
  simpl. apply IH. by apply step_ack.
Qed.

End Frame.

(** ** What an acknowledgement cannot retire *)

Section Retirement.
Variable WINDOW_SIZE : Z.

Lemma odict_set_keeps {V} k k' (v : V) (d : list (Z * V)) :
  k ∈ odict.keys d -> k ∈ odict.keys (odict.set k' v d).
Proof.
  unfold odict.keys. induction d as [|[k0 v0] d IH]; simpl.
  - intros H. by apply elem_of_nil in H.
  - intros [->|H]%elem_of_cons; destruct (Z.eqb_spec k' k0) as [->|]; simpl.
    + left.
    + left.
    + by right.
    + right. auto.
Qed.

Lemma dequeue_keeps c k :
  k ∈ odict.keys (_sending_window c) ->
  k ∈ odict.keys (_sending_window (conn_of (_dequeue_outbound_message WINDOW_SIZE c))).
Proof.
  intros Hk.
  unfold _dequeue_outbound_message, _schedule_send_in_order, _attempt_disabling_looping_send.
  destruct (_segment_queue c) as [|[mf msg] rest]; [done|]. simpl.
  destruct (_ && _); simpl; by apply odict_set_keeps.
Qed.

Lemma enabling_keeps c k :
  k ∈ odict.keys (_sending_window c) ->
  k ∈ odict.keys (_sending_window (_attempt_enabling_looping_send WINDOW_SIZE c)).
Proof.
  intros Hk. unfold _attempt_enabling_looping_send, loop_start, loop_call.
  destruct (_ && _); [|done].
  set (c1 := set_looping_send _ c).
  pose proof (dequeue_keeps c1 k Hk) as H.
  by destruct (_dequeue_outbound_message WINDOW_SIZE c1).
Qed.

Lemma cancel_window id c :
  _sending_window (conn_of (call_cancel id c)) = _sending_window c.
Proof.
  unfold call_cancel. destruct (reactor_calls c !! id) as [dc|]; [|done].
  by destruct (twisted.state dc).
Qed.

Lemma retire_each_keeps seqnums : forall c k,
  k ∉ seqnums ->
  k ∈ odict.keys (_sending_window c) ->
  k ∈ odict.keys (_sending_window (conn_of (retire_each seqnums c))).
Proof.
  induction seqnums as [|k' seqnums IH]; intros c k Hk Hin; [done|].
  apply not_elem_of_cons in Hk as [Hne Hk]. cbn [retire_each].
  destruct (odict.get k' (_sending_window c)) as [sch|]; [|done]. cbv zeta.
  set (c1 := set_sending_window _ c).
  assert (Hin1 : k ∈ odict.keys (_sending_window c1)) by by apply odict_remove_other.
  pose proof (cancel_window (timeout_cb sch) c1) as E.
  destruct (call_cancel (timeout_cb sch) c1) as [c2|e c2]; simpl in E.
  - cbn [and_then]. apply IH; [done|]. by rewrite E.
  - simpl. by rewrite E.
Qed.

(** Whatever the acknowledgement, the entry keyed by
    [_next_sequence_number], the last packet issued, stays in the window. *)
Lemma last_issued_packet_is_never_retired acknum c :
  _next_sequence_number c ∈ odict.keys (_sending_window c) ->
  _next_sequence_number c ∈
    odict.keys (_sending_window
                  (conn_of (_retire_packets_with_seqnum_up_to WINDOW_SIZE acknum c))).
Proof.
  intros Hin. unfold _retire_packets_with_seqnum_up_to.
  destruct (odict.keys (_sending_window c)) as [|lowest keys'] eqn:Hkeys;
    [by apply elem_of_nil in Hin|].
  rewrite <- Hkeys in Hin. cbv zeta.
  set (seqnums := py.range2 _ _).
  assert (Hout : _next_sequence_number c ∉ seqnums).
  { intros H. apply (Forall_elem (range2_lt lowest _)) in H. lia. }
  pose proof (retire_each_keeps seqnums c _ Hout Hin) as H.
  destruct (retire_each seqnums c) as [c1|e c1]; simpl in *; [|done].
  destruct (_ <? _); simpl; [|done]. by apply enabling_keeps.
Qed.

End Retirement.

(** ** The segmenter *)

Section Segmenter.
Context {A : Type}.
Implicit Types (m : list A) (sz : Z).

Lemma slice_in_range a b m :
  0 <= a <= b ->
  py.slice a b m =
    take (Z.to_nat (Z.min b (Z.of_nat (length m))) - Z.to_nat (Z.min a (Z.of_nat (length m))))%nat
         (drop (Z.to_nat (Z.min a (Z.of_nat (length m)))) m).
Proof.
  intros Hab. unfold py.slice, py.clamp.
  destruct (Z.ltb_spec a 0), (Z.ltb_spec b 0); try lia.
  f_equal. lia.
Qed.

Lemma concat_slices sz m (k : nat) :
  0 < sz ->
  concat ((fun i => py.slice (i * sz) ((i + 1) * sz) m) <$> seqZ 0 (Z.of_nat k))
  = take (Z.to_nat (Z.of_nat k * sz)) m.
Proof.
  intros HS. induction k as [|k IH].
  - simpl. by rewrite take_0.
  - rewrite seqZ_S, fmap_app, concat_app, IH. simpl.
    rewrite app_nil_r, slice_in_range by nia.
    set (n := Z.of_nat (length m)).
    replace (0 + Z.of_nat k) with (Z.of_nat k) by lia.
    replace (Z.of_nat (S k) * sz) with (Z.of_nat k * sz + sz) by lia.
    assert (0 <= Z.of_nat k * sz) by nia.
    destruct (Z_le_gt_dec n (Z.of_nat k * sz)) as [Hge|Hlt].
    + rewrite (drop_ge m) by lia. rewrite take_nil, app_nil_r.
      rewrite !take_ge by lia. done.
    + replace (Z.to_nat (Z.min (Z.of_nat k * sz) n)) with (Z.to_nat (Z.of_nat k * sz)) by lia.
      rewrite take_take_drop.
      destruct (Z_le_gt_dec n ((Z.of_nat k + 1) * sz)).
      * rewrite !take_ge; [done|lia|lia].
      * f_equal. lia.
Qed.
End Segmenter.

Lemma count_is_ceiling (len sz : Z) :
  0 < sz -> 0 <= len ->
  let count := (len + sz - 1) / sz in
  0 <= count /\ (count - 1) * sz < len <= count * sz.
Proof.
  intros Hsz Hlen count.
  pose proof (Z.div_mod (len + sz - 1) sz ltac:(lia)) as Hdm.
  pose proof (Z.mod_pos_bound (len + sz - 1) sz Hsz) as Hmod.
  fold count in Hdm. nia.
Qed.


(** ** Main theorems *)

Section Behaviour.
Variables UDP_SAFE_SEGMENT_SIZE WINDOW_SIZE MAX_RETRANSMISSIONS : Z.
Variable recursion_limit : nat.

Local Abbreviation reachable :=
  (reachable UDP_SAFE_SEGMENT_SIZE WINDOW_SIZE MAX_RETRANSMISSIONS recursion_limit).


(** C5: [receive_packet] dispatches an inbound packet as the
    specification words it: a FIN is processed when connected or when
    the initial SYN has been sent, a SYN when not connected, any other
    packet when connected, and everything else is dropped with the
    connection unchanged (so nothing is emitted). *)
Theorem receive_packet_dispatch (p : RUDPPacket) (c : RUDPConnection) :
  receive_packet WINDOW_SIZE recursion_limit p c =
    match spec_dispatch (packet.fin p) (packet.syn p) (connected c)
                        (twisted.active (_syn_handle c)) with
    | ProcessFin => _process_fin_packet p c
    | ProcessSyn => _process_syn_packet WINDOW_SIZE p c
    | ProcessCasual => _process_casual_packet WINDOW_SIZE recursion_limit p c
    | DropSilently => Ok c
    end.
Proof.
  unfold receive_packet, spec_dispatch.
  destruct (packet.fin p), (packet.syn p), (connected c),
    (twisted.active (_syn_handle c)); reflexivity.
Qed.


(** C6: a SYN carrying an acknowledgement, received by a connection
    that is not connected, is dropped without any change when the send
    window is empty or when the acknowledgement is not the oldest
    window key plus one; otherwise exactly the oldest entry is removed,
    its pending retransmit timer is cancelled and [connected] becomes
    true (after which the looping sender may be enabled).  No datagram
    is emitted in any of the three cases. *)
Theorem synack_is_accepted_only_for_the_oldest_entry
    (p : RUDPPacket) (c : RUDPConnection) :
  reachable c ->
  connected c = false ->
  packet.fin p = false -> packet.syn p = true -> 0 < packet.ack p ->
  match _sending_window c with
  | [] => receive_packet WINDOW_SIZE recursion_limit p c = Ok c
  | (lowest_seqnum, sch_packet) :: rest =>
      if packet.ack p =? lowest_seqnum + 1 then
        let c1 := set_connected true
                    (mark_call (timeout_cb sch_packet) twisted.Cancelled
                       (set_sending_window rest c)) in
        call_active (timeout_cb sch_packet) c = true /\
        call_active (timeout_cb sch_packet) c1 = false /\
        receive_packet WINDOW_SIZE recursion_limit p c
          = Ok (_attempt_enabling_looping_send WINDOW_SIZE c1) /\
        proto_sent (_attempt_enabling_looping_send WINDOW_SIZE c1) = proto_sent c
      else receive_packet WINDOW_SIZE recursion_limit p c = Ok c
  end.
Proof.
  intros Hreach Hconn Hfin Hsyn Hack.
  destruct (reachable_inv _ _ _ _ c Hreach) as [Hst Hsend].
  unfold receive_packet, _process_syn_packet. rewrite Hfin, Hsyn, Hconn. simpl.
  destruct (Z.gtb_spec (packet.ack p) 0); [|lia].
  destruct (_sending_window c) as [|[lowest sch] rest] eqn:Hw; [done|]. simpl.
  destruct (packet.ack p =? lowest + 1); [|done].
  rewrite Z.eqb_refl.
  assert (Hin : (lowest, sch) ∈ _sending_window c) by (rewrite Hw; left).
  pose proof (st_armed _ c Hst) as Harmed.
  apply (Forall_elem Harmed) in Hin as (dc & Hdc & Hp & _).
  simpl in Hdc.
  rewrite (cancel_armed c lowest sch Harmed); [|rewrite Hw; left|done].
  cbn [and_then]. unfold call_active, active_in. simpl. rewrite Hdc, Hp. simpl.
  split; [done|]. split; [|split; [done|]].
  - unfold mark. rewrite Hdc, list_lookup_insert_eq; [done|].
    by apply lookup_lt_Some in Hdc.
  - by rewrite enabling_sent.
Qed.





(** X19: in every reachable state the send window holds at most
    [WINDOW_SIZE] entries, [WINDOW_SIZE] being at least 1.  The looping
    sender is not started on a window that is full; a turn of the
    running sender inserts exactly one entry and leaves the sender
    running only if the window is not full and the segment queue is not
    empty; [_send_syn] writes the entry keyed by [_next_sequence_number],
    so that it leaves an empty window with one entry and a non-empty
    window with as many entries as it had. *)
Theorem send_window_is_bounded (c : RUDPConnection) :
  1 <= WINDOW_SIZE ->
  reachable c ->
  Z.of_nat (length (_sending_window c)) <= WINDOW_SIZE /\
  (WINDOW_SIZE <= Z.of_nat (length (_sending_window c)) ->
     _attempt_enabling_looping_send WINDOW_SIZE c = c) /\
  (running (_looping_send c) = true ->
     exists c',
       step UDP_SAFE_SEGMENT_SIZE WINDOW_SIZE MAX_RETRANSMISSIONS recursion_limit
            LoopingSend c = Ok c' /\
       length (_sending_window c') = S (length (_sending_window c)) /\
       (running (_looping_send c') = true ->
          Z.of_nat (length (_sending_window c')) < WINDOW_SIZE /\
          _segment_queue c' <> [])) /\
  length (_sending_window (_send_syn c)) = Nat.max 1 (length (_sending_window c)).
Proof.
  intros HW Hreach. pose proof (reachable_inv _ _ _ _ c Hreach) as Hc.
  destruct Hc as [Hst Hsend].
  split; [apply (st_bound _ c Hst HW)|]. split; [|split].
  - intros Hfull. unfold _attempt_enabling_looping_send.
    destruct (Z.ltb_spec (Z.of_nat (length (_sending_window c))) WINDOW_SIZE); [lia|].
    by rewrite andb_false_r.
  - intros Hrun. destruct (Hsend Hrun) as (Hconn & Hroom & Hq & _).
    destruct (dequeue_inv WINDOW_SIZE c Hst Hconn Hroom Hq)
      as (c' & Hok & [_ Hsend'] & _ & _ & _ & _ & _ & Hlen).
    exists c'. cbn [step]. unfold turn, loop_call. rewrite Hrun, Hok.
    split; [done|]. split; [done|].
    intros Hrun'. by destruct (Hsend' Hrun') as (_ & ? & ? & _).
  - by destruct (send_syn_inv WINDOW_SIZE c (conj Hst Hsend)) as (_ & ? & _).
Qed.

(** C9: the looping ACK task is never started from a stopped state.
    [_reset_ack_timeout] leaves a connection whose ack loop is stopped
    as it is, and on a connection that is not connected it only stops
    the loop; so if the loop is not running before a sequence of events
    it is not running after it, a turn of the periodic ACK driver then
    does nothing, and no bare ACK goes out. *)
Theorem looping_ack_is_never_started (events : list Event) (c : RUDPConnection) :
  running (_looping_ack c) = false ->
  let c' := run UDP_SAFE_SEGMENT_SIZE WINDOW_SIZE MAX_RETRANSMISSIONS recursion_limit
                events c in
  running (_looping_ack c') = false /\
  (forall t, _reset_ack_timeout recursion_limit t c' = c') /\
  step UDP_SAFE_SEGMENT_SIZE WINDOW_SIZE MAX_RETRANSMISSIONS recursion_limit
       LoopingAck c' = Ok c' /\
  (forall t c0, connected c0 = false ->
     running (_looping_ack (_reset_ack_timeout recursion_limit t c0)) = false).
Proof.
  intros Hoff c'.
  assert (Hoff' : running (_looping_ack c') = false) by by apply run_ack.
  split; [done|]. split; [|split].
  - intros t. by apply reset_ack_idle.
  - cbn [step]. unfold turn. by rewrite Hoff'.
  - intros t c0 Hconn. unfold _reset_ack_timeout, reset_ack_timeout_with.
    destruct (running (_looping_ack c0)) eqn:E; [|done]. simpl. by rewrite Hconn.
Qed.

End Behaviour.


(** C4: for a positive segment size the segmenter yields
    ceil(|m| / size) pairs: their count [n] satisfies
    (n - 1) * size < |m| <= n * size; the slices concatenated in order give
    the message back; the i-th pair (from 0) has [n - 1 - i] remaining, so
    the values go down from [n - 1] to 0 and the last pair has 0; the empty
    message yields no pair. *)
Theorem gen_segments_roundtrip (sz : Z) (m : list byte) :
  0 < sz ->
  exists segments,
    _gen_segments sz m = Some segments /\
    let count := Z.of_nat (length segments) in
    (count - 1) * sz < Z.of_nat (length m) <= count * sz /\
    concat (snd <$> segments) = m /\
    (forall (i : nat) seg,
        segments !! i = Some seg -> fst seg = count - 1 - Z.of_nat i) /\
    (m <> [] -> fst <$> last segments = Some 0) /\
    (m = [] -> segments = []).
Proof.
  intros Hsz. unfold _gen_segments. cbv zeta.
  destruct (Z.eqb_spec sz 0) as [->|_]; [lia|].
  destruct (count_is_ceiling (Z.of_nat (length m)) sz Hsz ltac:(lia)) as [Hc0 Hc].
  remember ((Z.of_nat (length m) + sz - 1) / sz) as count eqn:Hcount.
  eexists; split; [reflexivity|].
  cbv zeta.
  match goal with
  | |- context [length ?l] =>
      assert (Hlen : Z.of_nat (length l) = count)
        by (unfold py.range; rewrite length_fmap, length_seqZ; lia);
      rewrite !Hlen
  end.
  split; [exact Hc|]. split; [|split; [|split]].
  - rewrite <- list_fmap_compose. unfold py.range.
    rewrite <- (Z2Nat.id count) by lia.
    etransitivity; [apply (concat_slices sz m (Z.to_nat count) Hsz)|].
    apply take_ge. nia.
  - intros i seg Hi. rewrite list_lookup_fmap in Hi. unfold py.range in Hi.
    destruct (seqZ 0 count !! i) as [j|] eqn:Hj; [|discriminate].
    apply lookup_seqZ in Hj as [-> _]. injection Hi as <-. simpl. lia.
  - intros Hm. rewrite fmap_last, last_lookup.
    unfold py.range. rewrite length_seqZ.
    assert (0 < Z.of_nat (length m)) by (destruct m; [done|simpl; lia]).
    rewrite lookup_seqZ_lt by nia. simpl. f_equal. nia.
  - intros ->. simpl in *. assert (count = 0) as -> by nia. reflexivity.
Qed.

(** ** Evaluations on the example connection *)

Lemma example_reachable (events : list Event) :
  reachable example.UDP_SAFE_SEGMENT_SIZE example.WINDOW_SIZE example.MAX_RETRANSMISSIONS
            example.recursion_limit (example.play events example.fresh).
Proof.
  exists 5, example.here, example.peer, None, events. split; [|reflexivity].
  split; [lia|reflexivity].
Defined.


(** C2: the peer acknowledges our SYNACK, the last packet issued
    (sequence number 5, acknowledgement 6): nothing is retired.  With a
    data packet issued after it (sequence number 6), the acknowledgement 7
    retires the SYNACK and leaves the data packet in the window. *)
Lemma ack_of_last_issued_packet_retires_nothing :
  in_flight example.synack_sent = [(5, true, [])] /\
  _next_sequence_number example.synack_sent = 5 /\
  connected example.synack_sent = true /\
  step example.UDP_SAFE_SEGMENT_SIZE example.WINDOW_SIZE example.MAX_RETRANSMISSIONS
       example.recursion_limit (ReceivePacket (example.peer_ack 6)) example.synack_sent
    = Ok example.synack_sent /\
  _next_sequence_number (example.play [SendMessage example.hi] example.synack_sent) = 6 /\
  in_flight (example.play [SendMessage example.hi; ReceivePacket (example.peer_ack 7)]
                          example.synack_sent)
    = [(6, false, example.hi)].
Proof. repeat split; reflexivity. Qed.


(** C8: the peer's SYN arrived and a message was submitted before the
    one-shot call of [_send_syn] fired: the call is still pending and
    the send window already holds the data packet 6.  When it fires,
    [_send_syn] runs on a window that was not cleared; its SYN is stored
    under the key 6 and takes the place of the data packet, which is no
    longer in the window. *)
Lemma send_syn_runs_on_a_window_in_use :
  _syn_handle example.early_message = twisted.Pending /\
  in_flight example.early_message = [(6, false, example.hi)] /\
  step example.UDP_SAFE_SEGMENT_SIZE example.WINDOW_SIZE example.MAX_RETRANSMISSIONS
       example.recursion_limit SynHandle example.early_message
    = Ok (_send_syn (set_syn_handle twisted.Called example.early_message)) /\
  in_flight (_send_syn (set_syn_handle twisted.Called example.early_message))
    = [(6, true, [])].
Proof. repeat split; reflexivity. Qed.

(** C10: the peer's SYN arrives and a message is submitted before the
    one-shot call of [_send_syn] fires.  The data packet gets sequence
    number 6; the SYN sent afterwards carries 6 as well, not the initial
    sequence number 5, and takes the data packet's place in the window.
    Likewise a SYN sent after a shutdown that followed the data packet 6
    carries 6. *)
Lemma deferred_syn_takes_the_seqnum_of_a_data_packet :
  _next_sequence_number example.fresh = 5 /\
  in_flight example.early_message = [(6, false, example.hi)] /\
  in_flight (example.play [SynHandle] example.early_message) = [(6, true, [])] /\
  in_flight (example.play [SendMessage example.hi] example.synack_sent)
    = [(5, true, []); (6, false, example.hi)] /\
  in_flight (example.play [SendMessage example.hi; ReceivePacket example.peer_fin;
                           ReceivePacket example.peer_syn] example.synack_sent)
    = [(6, true, [])].
Proof. repeat split; reflexivity. Qed.

(** ** The main theorems at work on the example connection *)

(** C4 on the ten-byte message, with segments of 4 bytes. *)
Lemma gen_segments_roundtrip_witness :
  0 < 4 /\
  exists segments,
    _gen_segments 4 example.alphabet = Some segments /\
    (Z.of_nat (length segments) - 1) * 4 < Z.of_nat (length example.alphabet)
      <= Z.of_nat (length segments) * 4 /\
    concat (snd <$> segments) = example.alphabet /\
    (forall (i : nat) seg,
        segments !! i = Some seg ->
        fst seg = Z.of_nat (length segments) - 1 - Z.of_nat i) /\
    (example.alphabet <> [] -> fst <$> last segments = Some 0) /\
    (example.alphabet = [] -> segments = []).
Proof.
  split; [lia|]. apply (gen_segments_roundtrip 4 example.alphabet). lia.
Defined.


(** C6 on the connection whose SYN (sequence number 5) is in flight, for
    the peer's SYNACK with acknowledgement 6. *)
Lemma synack_is_accepted_only_for_the_oldest_entry_witness :
  reachable 4 3 2 8 example.syn_sent /\
  connected example.syn_sent = false /\
  packet.fin (example.peer_synack 6) = false /\
  packet.syn (example.peer_synack 6) = true /\
  0 < packet.ack (example.peer_synack 6) /\
  receive_packet 3 8 (example.peer_synack 6) example.syn_sent
    = Ok (_attempt_enabling_looping_send 3
            (set_connected true
               (mark_call 0 twisted.Cancelled (set_sending_window [] example.syn_sent)))).
Proof.
  split; [apply example_reachable|]. repeat (split; [reflexivity|]).
  destruct (synack_is_accepted_only_for_the_oldest_entry 4 3 2 8
              (example.peer_synack 6) example.syn_sent)
    as (_ & _ & H & _); [apply example_reachable|reflexivity..|exact H].
Defined.


(** X19 on the connection that got a message before its SYN went out. *)
Lemma send_window_is_bounded_witness :
  1 <= 3 /\
  reachable 4 3 2 8 example.early_message /\
  Z.of_nat (length (_sending_window example.early_message)) <= 3 /\
  length (_sending_window (_send_syn example.early_message))
    = Nat.max 1 (length (_sending_window example.early_message)).
Proof.
  split; [lia|]. split; [apply example_reachable|].
  destruct (send_window_is_bounded 4 3 2 8 example.early_message)
    as (H1 & _ & _ & H4); [lia|apply example_reachable|].
  exact (conj H1 H4).
Defined.

(** C9 on a new connection, through a handshake, a message and a turn
    of the ack driver. *)
Lemma looping_ack_is_never_started_witness :
  running (_looping_ack example.fresh) = false /\
  running (_looping_ack
             (example.play [SynHandle; ReceivePacket example.peer_syn;
                            SendMessage example.hi; LoopingAck] example.fresh)) = false.
Proof.
  split; [reflexivity|].
  apply (looping_ack_is_never_started 4 3 2 8
           [SynHandle; ReceivePacket example.peer_syn; SendMessage example.hi; LoopingAck]
           example.fresh).
  reflexivity.
Defined.

(** * Further properties *)

(** ** Sizes of the segments *)

Lemma gen_segments_payload sz (m : list byte) segments :
  0 < sz -> _gen_segments sz m = Some segments -> concat (snd <$> segments) = m.
Proof.
  intros Hsz Hgen. unfold _gen_segments in Hgen. cbv zeta in Hgen.
  destruct (Z.eqb_spec sz 0) as [->|_]; [lia|].
  destruct (count_is_ceiling (Z.of_nat (length m)) sz Hsz ltac:(lia)) as [Hc0 Hc].
  remember ((Z.of_nat (length m) + sz - 1) / sz) as count eqn:Hcount.
  injection Hgen as <-.
  rewrite <- list_fmap_compose. unfold py.range.
  rewrite <- (Z2Nat.id count) by lia.
  etransitivity; [apply (concat_slices sz m (Z.to_nat count) Hsz)|].
  apply take_ge. nia.
Qed.

(** X1: for a positive segment size no segment is empty and none is
    longer than the size; every segment but the last one (the one with 0
    remaining) has exactly that size. *)
Theorem segments_fit_the_safe_size (sz : Z) (m : list byte) (segments : list Segment)
    (i : nat) (seg : Segment) :
  0 < sz ->
  _gen_segments sz m = Some segments ->
  segments !! i = Some seg ->
  0 < Z.of_nat (length seg.2) <= sz /\
  (seg.1 <> 0 -> Z.of_nat (length seg.2) = sz).
Proof.
  intros Hsz Hgen Hi. unfold _gen_segments in Hgen. cbv zeta in Hgen.
  destruct (Z.eqb_spec sz 0) as [->|_]; [lia|].
  destruct (count_is_ceiling (Z.of_nat (length m)) sz Hsz ltac:(lia)) as [Hc0 Hc].
  remember ((Z.of_nat (length m) + sz - 1) / sz) as count eqn:Hcount.
  injection Hgen as <-. rewrite list_lookup_fmap in Hi. unfold py.range in Hi.
  destruct (seqZ 0 count !! i) as [j|] eqn:Hj; [|discriminate].
  apply lookup_seqZ in Hj as [-> Hlt]. injection Hi as <-. simpl.
  rewrite slice_in_range by nia.
  rewrite length_take, length_drop.
  assert (Hlo : (0 + Z.of_nat i) * sz < Z.of_nat (length m)) by nia.
  split; [split|].
  - nia.
  - nia.
  - intros Hrem. assert ((0 + Z.of_nat i + 1) * sz < Z.of_nat (length m)) by nia. nia.
Qed.

(** ** Messages submitted before the handshake *)

Lemma send_message_idle sz W (m : list byte) c :
  connected c = false ->
  send_message sz W m c =
    match _gen_segments sz m with
    | Some segments => Ok (set_segment_queue (_segment_queue c ++ segments) c)
    | None => Raise py.ZeroDivisionError c
    end.
Proof.
  intros Hconn. unfold send_message. destruct (_gen_segments sz m) as [segments|]; [|done].
  rewrite foldl_snoc_app. unfold _attempt_enabling_looping_send. simpl. by rewrite Hconn.
Qed.

Section Queueing.
Variables UDP_SAFE_SEGMENT_SIZE WINDOW_SIZE MAX_RETRANSMISSIONS : Z.
Variable recursion_limit : nat.

(** X2: on a connection that is not connected, [send_message] only
    appends the segments of the message to the segment queue.  Messages
    submitted one after the other leave the queue followed by the
    segments of each message, in the order of submission, and every
    other field as it was; the payloads of the queue, concatenated, are
    those it held before followed by the messages. *)
Theorem messages_wait_in_order_until_connected
    (messages : list (list byte)) (c : RUDPConnection) :
  0 < UDP_SAFE_SEGMENT_SIZE ->
  connected c = false ->
  let c' := run UDP_SAFE_SEGMENT_SIZE WINDOW_SIZE MAX_RETRANSMISSIONS recursion_limit
                (SendMessage <$> messages) c in
  exists segments,
    Forall2 (fun m s => _gen_segments UDP_SAFE_SEGMENT_SIZE m = Some s) messages segments /\
    c' = set_segment_queue (_segment_queue c ++ concat segments) c /\
    concat (snd <$> _segment_queue c') = concat (snd <$> _segment_queue c) ++ concat messages.
Proof.
  intros Hsz. revert c. induction messages as [|m ms IH]; intros c Hconn; cbv zeta.
  - exists []. split; [constructor|]. simpl. rewrite !app_nil_r. split; [by destruct c|done].
  - destruct (_gen_segments UDP_SAFE_SEGMENT_SIZE m) as [s|] eqn:Hgen.
    2:{ unfold _gen_segments in Hgen. destruct (Z.eqb_spec UDP_SAFE_SEGMENT_SIZE 0); [lia|done]. }
    destruct (IH (set_segment_queue (_segment_queue c ++ s) c) Hconn) as (ss & Hall & Hrun & Hpay).
    cbv zeta in Hrun, Hpay.
    assert (Hstep : run UDP_SAFE_SEGMENT_SIZE WINDOW_SIZE MAX_RETRANSMISSIONS recursion_limit
                      (SendMessage <$> m :: ms) c
                    = run UDP_SAFE_SEGMENT_SIZE WINDOW_SIZE MAX_RETRANSMISSIONS recursion_limit
                      (SendMessage <$> ms) (set_segment_queue (_segment_queue c ++ s) c)).
    { rewrite fmap_cons. unfold run at 1. cbn [foldl step].
      by rewrite send_message_idle, Hgen. }
    rewrite Hstep. exists (s :: ss). split; [by constructor|]. split.
    + rewrite Hrun. simpl. by rewrite app_assoc.
    + rewrite Hpay. simpl. rewrite fmap_app, concat_app, <- app_assoc.
      by rewrite (gen_segments_payload _ _ _ Hsz Hgen).
Qed.

End Queueing.

(** ** Cancelling the timers of the window *)

Lemma active_in_mark_cancelled id id' calls :
  active_in (mark id twisted.Cancelled calls) id' =
    if decide (id' = id) then false else active_in calls id'.
Proof.
  destruct (decide (id' = id)) as [->|Hne].
  - unfold mark, active_in. destruct (calls !! id) as [dc|] eqn:E; [|by rewrite E].
    rewrite list_lookup_insert_eq; [done|]. by apply lookup_lt_Some in E.
  - unfold active_in. by rewrite mark_lookup_ne.
Qed.

Lemma sweep_length l : forall calls, length (sweep calls l) = length calls.
Proof.
  induction l as [|s l IH]; intros calls; [done|]. simpl.
  destruct (active_in calls (timeout_cb s)); rewrite IH; [apply mark_length|done].
Qed.

Lemma sweep_other l id : forall calls,
  Forall (fun s => timeout_cb s <> id) l -> sweep calls l !! id = calls !! id.
Proof.
  induction l as [|s l IH]; intros calls Hl; [done|]. simpl.
  apply Forall_cons in Hl as [Hs Hl].
  destruct (active_in calls (timeout_cb s)); rewrite IH by done; [|done].
  by apply mark_lookup_ne.
Qed.

Lemma sweep_inactive l id : forall calls,
  active_in calls id = false -> active_in (sweep calls l) id = false.
Proof.
  induction l as [|s l IH]; intros calls Hoff; [done|]. simpl.
  destruct (active_in calls (timeout_cb s)); apply IH; [|done].
  rewrite active_in_mark_cancelled. by destruct (decide _).
Qed.

Lemma sweep_covers l s : forall calls,
  s ∈ l -> active_in (sweep calls l) (timeout_cb s) = false.
Proof.
  induction l as [|s' l IH]; intros calls Hin; [by apply elem_of_nil in Hin|].
  apply elem_of_cons in Hin as [<- | Hin]; [|by apply IH].
  simpl. apply sweep_inactive.
  destruct (active_in calls (timeout_cb s)) eqn:E; [|done].
  rewrite active_in_mark_cancelled. by destruct (decide _).
Qed.

Lemma sweep_window (w : list (Z * ScheduledPacket)) k s calls :
  (k, s) ∈ w -> active_in (sweep calls (odict.values w)) (timeout_cb s) = false.
Proof.
  intros Hin. apply sweep_covers. unfold odict.values.
  apply list_elem_of_fmap. by exists (k, s).
Qed.

Lemma clear_calls c :
  reactor_calls (_clear_sending_window c)
  = sweep (reactor_calls c) (odict.values (_sending_window c)).
Proof. reflexivity. Qed.

(** X3: [_clear_sending_window] empties the window and touches nothing
    but the window and the delayed calls.  No timer of a former entry is
    active afterwards; a call that was not active (fired or cancelled)
    stays so, the calls that no entry referred to are as they were, and
    no call is added. *)
Theorem clear_sending_window_cancels_every_timer (c : RUDPConnection) :
  let c' := _clear_sending_window c in
  c' = set_sending_window [] (set_reactor_calls (reactor_calls c') c) /\
  length (reactor_calls c') = length (reactor_calls c) /\
  (forall seqnum sch_packet,
      (seqnum, sch_packet) ∈ _sending_window c ->
      call_active (timeout_cb sch_packet) c' = false) /\
  (forall id, call_active id c = false -> call_active id c' = false) /\
  (forall id,
      (forall seqnum sch_packet,
          (seqnum, sch_packet) ∈ _sending_window c -> timeout_cb sch_packet <> id) ->
      reactor_calls c' !! id = reactor_calls c !! id).
Proof.
  cbv zeta. unfold call_active. rewrite clear_calls.
  split; [done|]. split; [apply sweep_length|]. split; [|split].
  - intros k s Hin. by apply (sweep_window _ k).
  - intros id. apply sweep_inactive.
  - intros id Hid. apply sweep_other. apply Forall_forall. intros s Hin.
    unfold odict.values in Hin. apply list_elem_of_fmap in Hin as ([k s'] & -> & Hin).
    by apply (Hid k).
Qed.

(** ** What a shutdown leaves behind *)

Lemma shutdown_frame c :
  own_addr (shutdown c) = own_addr c /\
  dest_addr (shutdown c) = dest_addr c /\
  relay_addr (shutdown c) = relay_addr c /\
  _next_expected_seqnum (shutdown c) = _next_expected_seqnum c /\
  _segment_queue (shutdown c) = _segment_queue c /\
  _receive_heap (shutdown c) = _receive_heap c /\
  _syn_handle (shutdown c) = _syn_handle c /\
  handler_received (shutdown c) = handler_received c /\
  reactor_calls (shutdown c) = sweep (reactor_calls c) (odict.values (_sending_window c)).
Proof.
  unfold shutdown, _send_fin, _schedule_send_out_of_order, _clear_sending_window, sweep.
  simpl.
  destruct (running (_looping_ack c)) eqn:E1; simpl;
    destruct (running (_looping_send c)) eqn:E2; simpl;
    destruct (running (_looping_receive c)) eqn:E3; simpl; done.
Qed.

Section Shutdown.
Variables MAX_RETRANSMISSIONS : Z.
Variable recursion_limit : nat.

(** X4: after [shutdown] no timer of a former window entry is active, so
    that its firing does nothing, and no call that was inactive is
    revived.  The segment queue, the receive heap, both sequence numbers
    and the one-shot call of [_send_syn] are left as they were: segments
    that were queued stay queued, and a SYN that was still to be sent is
    still to be sent. *)
Theorem shutdown_cancels_the_timers_and_keeps_the_queue (c : RUDPConnection) :
  (forall seqnum sch_packet,
      (seqnum, sch_packet) ∈ _sending_window c ->
      call_active (timeout_cb sch_packet) (shutdown c) = false /\
      fire_delayed_send MAX_RETRANSMISSIONS recursion_limit (timeout_cb sch_packet) (shutdown c)
        = Ok (shutdown c)) /\
  (forall id, call_active id c = false -> call_active id (shutdown c) = false) /\
  _segment_queue (shutdown c) = _segment_queue c /\
  _receive_heap (shutdown c) = _receive_heap c /\
  _next_expected_seqnum (shutdown c) = _next_expected_seqnum c /\
  _next_sequence_number (shutdown c) = _next_sequence_number c /\
  _syn_handle (shutdown c) = _syn_handle c.
Proof.
  destruct (shutdown_frame c) as (_ & _ & _ & Enee & Eq & Eh & Esyn & _ & Ecalls).
  destruct (shutdown_effect c) as (_ & Ensn & _).
  unfold call_active in *. rewrite Ecalls.
  split; [|split; [intros id; apply sweep_inactive|done]].
  intros k s Hin. pose proof (sweep_window _ k s (reactor_calls c) Hin) as Hk.
  split; [done|].
  unfold fire_delayed_send. rewrite Ecalls. unfold active_in in Hk.
  destruct (sweep (reactor_calls c) (odict.values (_sending_window c)) !! timeout_cb s)
    as [dc|]; [|done].
  by rewrite Hk.
Qed.

End Shutdown.

(** ** A bare SYN from the peer *)

Lemma process_syn_bare W p c :
  packet.ack p <= 0 ->
  _process_syn_packet W p c =
    Ok (set_connected true
          (let c2 := _clear_sending_window
                       (set_next_expected_seqnum (packet.sequence_number p + 1) c) in
           if negb (twisted.active (_syn_handle c2)) then _send_syn c2 else c2)).
Proof.
  intros Hack. unfold _process_syn_packet.
  by destruct (Z.gtb_spec (packet.ack p) 0) as [?|_]; [lia|].
Qed.

Lemma process_syn_sent W p c :
  proto_sent (conn_of (_process_syn_packet W p c)) = proto_sent c.
Proof.
  unfold _process_syn_packet. destruct (packet.ack p >? 0).
  - destruct (odict.keys (_sending_window c)) as [|lo ks]; [done|].
    destruct (packet.ack p =? lo + 1); [|done].
    destruct (odict.get lo (_sending_window c)) as [sch|]; [|done].
    unfold call_cancel. simpl.
    destruct (reactor_calls c !! timeout_cb sch) as [dc|]; [|done].
    destruct (twisted.state dc); try done.
    simpl. by rewrite enabling_sent.
  - simpl. by destruct (negb _).
Qed.

Section BareSyn.
Variable WINDOW_SIZE : Z.
Variable recursion_limit : nat.

(** X5: a SYN without acknowledgement always connects: the next
    expected sequence number becomes the SYN's plus 1, the window is
    cleared and the timers of its entries (those that refer to a call of
    the reactor) are no longer active; nothing is emitted.  If the
    one-shot call of [_send_syn] has not fired yet the window stays
    empty; otherwise it holds one entry, a SYN with the current sequence
    number that acknowledges the peer's SYN, with a fresh pending
    timer. *)
Theorem bare_syn_connects_and_answers_with_a_synack (p : RUDPPacket) (c : RUDPConnection) :
  packet.ack p <= 0 ->
  exists c',
    _process_syn_packet WINDOW_SIZE p c = Ok c' /\
    connected c' = true /\
    _next_expected_seqnum c' = packet.sequence_number p + 1 /\
    _next_sequence_number c' = _next_sequence_number c /\
    proto_sent c' = proto_sent c /\
    (forall seqnum sch_packet,
        (seqnum, sch_packet) ∈ _sending_window c ->
        (timeout_cb sch_packet < length (reactor_calls c))%nat ->
        call_active (timeout_cb sch_packet) c' = false) /\
    if twisted.active (_syn_handle c) then _sending_window c' = []
    else
      _sending_window c' =
        [(_next_sequence_number c,
          mkScheduled
            (packet.mk (_next_sequence_number c) (dest_addr c) (own_addr c) [] 0
                       (packet.sequence_number p + 1) false true)
            twisted.PACKET_TIMEOUT (length (reactor_calls c)) 0)] /\
      reactor_calls c' !! length (reactor_calls c)
        = Some (twisted.mkCall twisted.Zero (_next_sequence_number c) twisted.Pending).
Proof.
  intros Hack. rewrite process_syn_bare by done.
  eexists. split; [reflexivity|].
  assert (Hoff : forall k s, (k, s) ∈ _sending_window c ->
            active_in (sweep (reactor_calls c) (odict.values (_sending_window c)))
                      (timeout_cb s) = false)
    by (intros k s; apply sweep_window).
  unfold _clear_sending_window, call_active. cbv zeta. simpl.
  fold (sweep (reactor_calls c) (odict.values (_sending_window c))).
  destruct (twisted.active (_syn_handle c)) eqn:Eact; simpl.
  - repeat split; try done. intros k s Hin _. by apply (Hoff k).
  - unfold _finalize_packet. rewrite sweep_length.
    split; [done|]. split; [done|]. split; [done|]. split; [done|]. split; [|split; [done|]].
    + intros k s Hin Hlt. specialize (Hoff k s Hin).
      unfold active_in in *. rewrite lookup_app_l; [done|]. by rewrite sweep_length.
    + rewrite <- (sweep_length (odict.values (_sending_window c)) (reactor_calls c)).
      by apply list_lookup_middle.
Qed.

(** X6: [shutdown] does not close the connection for good.  After it, a
    packet that is neither FIN nor SYN is dropped, and a SYN without
    acknowledgement connects again: the sequence number goes on from
    where it was and the segments that were queued are still queued. *)
Theorem closed_connection_drops_data_and_reopens_on_a_bare_syn
    (p : RUDPPacket) (c : RUDPConnection) :
  packet.fin p = false ->
  (packet.syn p = false ->
     receive_packet WINDOW_SIZE recursion_limit p (shutdown c) = Ok (shutdown c)) /\
  (packet.syn p = true -> packet.ack p <= 0 ->
     exists c',
       receive_packet WINDOW_SIZE recursion_limit p (shutdown c) = Ok c' /\
       connected c' = true /\
       _next_expected_seqnum c' = packet.sequence_number p + 1 /\
       _next_sequence_number c' = _next_sequence_number c /\
       _segment_queue c' = _segment_queue c /\
       handler_shutdowns c' = S (handler_shutdowns c)).
Proof.
  intros Hfin. unfold receive_packet. rewrite Hfin.
  destruct (shutdown_effect c) as (Hconn & Hnsn & _ & _ & _ & _ & _ & Hsd).
  destruct (shutdown_frame c) as (_ & _ & _ & _ & Hq & _ & _ & _ & _).
  rewrite Hconn. split.
  - by intros ->.
  - intros -> Hack. simpl. rewrite process_syn_bare by done.
    eexists. split; [reflexivity|]. cbv zeta.
    destruct (negb _); simpl; rewrite ?Hnsn, ?Hq, ?Hsd; done.
Qed.

End BareSyn.

(** ** The shape of the window and of the emissions *)

Lemma seqZ_succ m (n : nat) : seqZ m (Z.of_nat (S n)) = m :: seqZ (m + 1) (Z.of_nat n).
Proof.
  rewrite seqZ_cons by lia. f_equal. f_equal; lia.
Qed.

Lemma seqZ_snoc m (n : nat) : seqZ m (Z.of_nat (S n)) = seqZ m (Z.of_nat n) ++ [m + Z.of_nat n].
Proof.
  apply seqZ_S.
Qed.

Lemma Forall_odict_set {V} (P : Z * V -> Prop) k v d :
  Forall P d -> P (k, v) -> Forall P (odict.set k v d).
Proof.
  intros Hd Hv. apply Forall_forall. intros x Hx.
  apply odict_set_elem in Hx as [-> | Hx]; [done|].
  by apply (Forall_elem Hd).
Qed.

Section Shape.
Variables UDP_SAFE_SEGMENT_SIZE WINDOW_SIZE MAX_RETRANSMISSIONS : Z.
Variable recursion_limit : nat.
Variables o d r : Address.

Local Abbreviation shaped := (shaped MAX_RETRANSMISSIONS o d r).
Local Abbreviation Inv := (Inv WINDOW_SIZE).

Lemma shaped_frame c c' : view c' = view c -> shaped c -> shaped c'.
Proof.
  unfold view. intros E [H1 H2 H3 H4 H5 H6 H7 H8 H9 H10].
  injection E as E1 E2 E3 E4 E5 E6 E7 E8.
  constructor; unfold contiguous in *; rewrite ?E1, ?E2, ?E3, ?E4, ?E5, ?E6, ?E7, ?E8; done.
Qed.

Lemma contiguous_le c :
  contiguous c -> Forall (fun k => k <= _next_sequence_number c) (odict.keys (_sending_window c)).
Proof.
  intros H. rewrite H. apply Forall_forall. intros k Hk.
  apply elem_of_seqZ in Hk. lia.
Qed.

Lemma contiguous_fresh c :
  contiguous c -> _next_sequence_number c + 1 ∉ odict.keys (_sending_window c).
Proof.
  intros H Hin. apply (Forall_elem (contiguous_le c H)) in Hin. lia.
Qed.

Lemma contiguous_last c :
  contiguous c -> _sending_window c <> [] ->
  _next_sequence_number c ∈ odict.keys (_sending_window c).
Proof.
  intros H Hne. rewrite H. apply elem_of_seqZ.
  destruct (_sending_window c); [done|]. simpl length. lia.
Qed.

Lemma contiguous_head c k v w :
  contiguous c -> _sending_window c = (k, v) :: w ->
  k = _next_sequence_number c - Z.of_nat (length w) /\
  odict.keys w = seqZ (_next_sequence_number c + 1 - Z.of_nat (length w)) (Z.of_nat (length w)).
Proof.
  unfold contiguous. intros H E. rewrite E in H. simpl length in H.
  rewrite seqZ_succ in H. simpl in H. injection H as H1 H2.
  split; [lia|]. rewrite H2. f_equal. lia.
Qed.

(** Replacing the window by another one and the calls by other ones. *)
Lemma shaped_window c c' :
  shaped c ->
  own_addr c' = own_addr c -> dest_addr c' = dest_addr c -> relay_addr c' = relay_addr c ->
  _next_sequence_number c <= _next_sequence_number c' ->
  proto_sent c' = proto_sent c ->
  handler_shutdowns c' = handler_shutdowns c ->
  handler_received c' = handler_received c ->
  contiguous c' ->
  Forall (fun e => 0 <= retries e.2 <= Z.max 0 MAX_RETRANSMISSIONS) (_sending_window c') ->
  Forall (fun e => addressed o d (rudp_packet e.2) /\
                   packet.fin (rudp_packet e.2) = false /\
                   0 < packet.sequence_number (rudp_packet e.2)) (_sending_window c') ->
  shaped c'.
Proof.
  intros [H1 H2 H3 H4 H5 H6 H7 H8 H9 H10] E1 E2 E3 E4 E5 E6 E7 Hc Hr Hw.
  constructor; rewrite ?E1, ?E2, ?E3, ?E5, ?E6, ?E7; try done. lia.
Qed.

Lemma shaped_tail c e w calls :
  shaped c -> _sending_window c = e :: w ->
  shaped (set_reactor_calls calls (set_sending_window w c)).
Proof.
  intros Hc E. apply (shaped_window c); try done; simpl; try lia.
  - destruct e as [k v]. destruct (contiguous_head c k v w (sh_contig _ _ _ _ c Hc) E) as [_ H].
    unfold contiguous. by simpl.
  - pose proof (sh_retries _ _ _ _ c Hc) as H. rewrite E in H. by apply Forall_cons in H as [_ H].
  - pose proof (sh_window _ _ _ _ c Hc) as H. rewrite E in H. by apply Forall_cons in H as [_ H].
Qed.

Lemma disabling_view c : view (_attempt_disabling_looping_send WINDOW_SIZE c) = view c.
Proof. unfold _attempt_disabling_looping_send. by destruct (_ && _). Qed.

Lemma schedule_shaped p t c :
  shaped c ->
  (_sending_window c = [] /\ packet.sequence_number p = _next_sequence_number c) \/
  packet.sequence_number p ∈ odict.keys (_sending_window c) ->
  addressed o d p -> packet.fin p = false -> 0 < packet.sequence_number p ->
  shaped (_schedule_send_in_order p t c).
Proof.
  intros Hc Hk Ha Hf Hs. unfold _schedule_send_in_order, callLater, _finalize_packet. simpl.
  apply (shaped_window c); try done; simpl; try lia.
  - unfold contiguous. simpl. destruct Hk as [[-> ->] | Hk].
    + simpl length. rewrite seqZ_succ. simpl. f_equal. lia.
    + destruct (odict_set_present (packet.sequence_number p)
                  (mkScheduled p t (length (reactor_calls c)) 0) (_sending_window c) Hk)
        as [-> ->].
      apply (sh_contig _ _ _ _ c Hc).
  - apply Forall_odict_set; [apply (sh_retries _ _ _ _ c Hc)|]. simpl. lia.
  - apply Forall_odict_set; [apply (sh_window _ _ _ _ c Hc)|]. done.
Qed.

Lemma dequeue_shaped c :
  shaped c -> shaped (conn_of (_dequeue_outbound_message WINDOW_SIZE c)).
Proof.
  intros Hc. unfold _dequeue_outbound_message.
  destruct (_segment_queue c) as [|[mf msg] rest] eqn:Eq; [done|].
  unfold _get_next_sequence_number. cbv zeta. cbn [conn_of].
  apply (shaped_frame _ _ (disabling_view _)).
  unfold _schedule_send_in_order, callLater, _finalize_packet. simpl.
  rewrite odict_set_absent by apply contiguous_fresh, (sh_contig _ _ _ _ c Hc).
  apply (shaped_window c); try done; simpl; try lia.
  - unfold contiguous. simpl. rewrite odict_keys_snoc, length_app. simpl length.
    rewrite (sh_contig _ _ _ _ c Hc).
    replace (length (_sending_window c) + 1)%nat with (S (length (_sending_window c))) by lia.
    rewrite seqZ_snoc. f_equal; [f_equal; lia|f_equal; lia].
  - apply Forall_app. split; [apply (sh_retries _ _ _ _ c Hc)|].
    repeat constructor; simpl; lia.
  - apply Forall_app. split; [apply (sh_window _ _ _ _ c Hc)|].
    pose proof (sh_pos _ _ _ _ c Hc). pose proof (sh_own _ _ _ _ c Hc).
    pose proof (sh_dest _ _ _ _ c Hc).
    repeat constructor; simpl; try done; lia.
Qed.

Lemma enabling_shaped c :
  shaped c -> shaped (_attempt_enabling_looping_send WINDOW_SIZE c).
Proof.
  intros Hc. unfold _attempt_enabling_looping_send.
  destruct (_ && _ && _ && _); [|done].
  unfold loop_start, loop_call.
  assert (H1 : shaped (set_looping_send (twisted.mkLoop true twisted.Zero) c))
    by (by apply (shaped_frame c)).
  apply dequeue_shaped in H1.
  destruct (_dequeue_outbound_message WINDOW_SIZE _) as [c'|x c']; [done|].
  by apply (shaped_frame c').
Qed.

Lemma send_message_shaped m c :
  shaped c -> shaped (conn_of (send_message UDP_SAFE_SEGMENT_SIZE WINDOW_SIZE m c)).
Proof.
  intros Hc. unfold send_message.
  destruct (_gen_segments UDP_SAFE_SEGMENT_SIZE m); [|done].
  cbn [conn_of]. apply enabling_shaped. by apply (shaped_frame c).
Qed.

Lemma send_syn_shaped c : shaped c -> shaped (_send_syn c).
Proof.
  intros Hc. unfold _send_syn. apply schedule_shaped; try done.
  - simpl. destruct (_sending_window c) eqn:E; [by left|right].
    rewrite <- E. apply contiguous_last; [apply (sh_contig _ _ _ _ c Hc)|]. by rewrite E.
  - split; simpl; [apply (sh_dest _ _ _ _ c Hc)|apply (sh_own _ _ _ _ c Hc)].
  - simpl. pose proof (sh_pos _ _ _ _ c Hc). lia.
Qed.

Lemma clear_shaped c : shaped c -> shaped (_clear_sending_window c).
Proof.
  intros Hc. unfold _clear_sending_window. cbv zeta.
  apply (shaped_window c); try done; simpl; try lia.
Qed.

Lemma shutdown_shaped c : shaped c -> shaped (shutdown c).
Proof.
  intros Hc.
  destruct (shutdown_effect c) as (_ & E2 & E3 & _ & _ & _ & E7 & E8).
  destruct (shutdown_frame c) as (F1 & F2 & F3 & _ & _ & _ & _ & F8 & _).
  destruct Hc as [H1 H2 H3 H4 H5 H6 H7 H8 H9 H10].
  constructor; unfold contiguous; rewrite ?F1, ?F2, ?F3, ?E2, ?E3, ?E7, ?E8, ?F8; try done.
  - apply Forall_app. split; [done|]. repeat constructor; simpl; done.
  - rewrite List.filter_app, length_app. simpl. rewrite H9. lia.
Qed.

Lemma do_send_shaped seqnum c :
  running (_looping_ack c) = false ->
  shaped c ->
  shaped (conn_of (_do_send_packet MAX_RETRANSMISSIONS recursion_limit seqnum c)).
Proof.
  intros Hoff Hc. unfold _do_send_packet.
  destruct (odict.get seqnum (_sending_window c)) as [sch|] eqn:Hget; [|done].
  destruct (Z.geb_spec (retries sch) MAX_RETRANSMISSIONS) as [Hge|Hlt];
    [by apply shutdown_shaped|].
  simpl. rewrite reset_ack_idle by done.
  pose proof (get_in_keys _ _ _ Hget) as Hin.
  pose proof (odict_get_Some_elem _ _ _ Hget) as Hel.
  pose proof (Forall_elem (sh_retries _ _ _ _ c Hc) _ Hel) as Hr.
  pose proof (Forall_elem (sh_window _ _ _ _ c Hc) _ Hel) as (Ha & Hf & Hs).
  simpl in Hr, Ha, Hf, Hs.
  destruct Hc as [H1 H2 H3 H4 H5 H6 H7 H8 H9 H10].
  constructor; simpl; try done.
  - unfold contiguous. simpl.
    destruct (odict_set_present seqnum
                (mkScheduled (rudp_packet sch) (timeout sch) (length (reactor_calls c))
                             (retries sch + 1)) (_sending_window c) Hin) as [-> ->].
    done.
  - apply Forall_odict_set; [done|]. simpl. lia.
  - apply Forall_odict_set; [done|]. done.
  - apply Forall_app. split; [done|]. repeat constructor; simpl; try done; try apply Ha.
    + intros E. congruence.
    + intros E. lia.
  - rewrite List.filter_app, length_app. simpl. rewrite Hf. simpl. lia.
Qed.

Lemma fire_delayed_send_shaped id c :
  running (_looping_ack c) = false ->
  shaped c ->
  shaped (conn_of (fire_delayed_send MAX_RETRANSMISSIONS recursion_limit id c)).
Proof.
  intros Hoff Hc. unfold fire_delayed_send.
  destruct (reactor_calls c !! id) as [dc|]; [|done].
  destruct (twisted.active (twisted.state dc)); [|done].
  apply do_send_shaped; [done|]. by apply (shaped_frame c).
Qed.

Lemma fire_syn_handle_shaped c : shaped c -> shaped (fire_syn_handle c).
Proof.
  intros Hc. unfold fire_syn_handle. destruct (twisted.active (_syn_handle c)); [|done].
  apply send_syn_shaped. by apply (shaped_frame c).
Qed.

Lemma cancel_view id c : view (conn_of (call_cancel id c)) = view c.
Proof.
  unfold call_cancel. destruct (reactor_calls c !! id) as [dc|]; [|done].
  by destruct (twisted.state dc).
Qed.

End Shape.

(** ** Retiring acknowledged packets *)

Lemma conn_eta c :
  c = set_reactor_calls (reactor_calls c) (set_sending_window (_sending_window c) c).
Proof. by destruct c. Qed.

Lemma cancel_each_cons e l calls :
  cancel_each (e :: l) calls = cancel_each l (mark (timeout_cb e.2) twisted.Cancelled calls).
Proof. reflexivity. Qed.

Lemma cancel_each_length l : forall calls, length (cancel_each l calls) = length calls.
Proof.
  induction l as [|e l IH]; intros calls; [done|].
  by rewrite cancel_each_cons, IH, mark_length.
Qed.

Lemma cancel_each_other l id : forall calls,
  Forall (fun e => timeout_cb e.2 <> id) l -> cancel_each l calls !! id = calls !! id.
Proof.
  induction l as [|e l IH]; intros calls Hl; [done|].
  apply Forall_cons in Hl as [He Hl].
  rewrite cancel_each_cons, IH by done. by apply mark_lookup_ne.
Qed.

Lemma cancel_each_inactive l id : forall calls,
  active_in calls id = false -> active_in (cancel_each l calls) id = false.
Proof.
  induction l as [|e l IH]; intros calls Hoff; [done|].
  rewrite cancel_each_cons. apply IH.
  rewrite active_in_mark_cancelled. by destruct (decide _).
Qed.

Lemma cancel_each_covers l e : forall calls,
  e ∈ l -> active_in (cancel_each l calls) (timeout_cb e.2) = false.
Proof.
  induction l as [|e' l IH]; intros calls Hin; [by apply elem_of_nil in Hin|].
  rewrite cancel_each_cons.
  apply elem_of_cons in Hin as [<- | Hin]; [|by apply IH].
  apply cancel_each_inactive.
  rewrite active_in_mark_cancelled. by destruct (decide _).
Qed.

(** A window with consecutive keys, cut at a sequence number. *)
Lemma consecutive_cut {V} (a : Z) (w : list (Z * V)) : forall lo,
  odict.keys w = seqZ lo (Z.of_nat (length w)) ->
  take (Z.to_nat (a - lo)) w = filter (fun e => e.1 < a) w /\
  drop (Z.to_nat (a - lo)) w = filter (fun e => a <= e.1) w.
Proof.
  induction w as [|[k v] w IH]; intros lo Hk.
  - by rewrite take_nil, drop_nil.
  - simpl length in Hk. rewrite seqZ_succ in Hk. simpl in Hk. injection Hk as -> Hk.
    destruct (IH _ Hk) as [IH1 IH2].
    destruct (Z_lt_ge_dec lo a) as [Hlt|Hge].
    + replace (Z.to_nat (a - lo)) with (S (Z.to_nat (a - (lo + 1)))) by lia.
      rewrite filter_cons_True by (simpl; lia).
      rewrite filter_cons_False by (simpl; lia).
      simpl. by rewrite IH1, IH2.
    + replace (Z.to_nat (a - lo)) with 0%nat by lia.
      replace (Z.to_nat (a - (lo + 1))) with 0%nat in * by lia.
      rewrite filter_cons_False by (simpl; lia).
      rewrite filter_cons_True by (simpl; lia).
      simpl in *. by rewrite <- IH1, <- IH2.
Qed.

Section Retiring.
Variables UDP_SAFE_SEGMENT_SIZE WINDOW_SIZE MAX_RETRANSMISSIONS : Z.
Variable recursion_limit : nat.
Variables o d r : Address.

Local Abbreviation shaped := (shaped MAX_RETRANSMISSIONS o d r).
Local Abbreviation Inv := (Inv WINDOW_SIZE).

Lemma retire_each_effect (n : nat) : forall c lo,
  Inv c -> shaped c ->
  (n < length (_sending_window c))%nat ->
  head (odict.keys (_sending_window c)) = Some lo ->
  let c' := set_reactor_calls (cancel_each (take n (_sending_window c)) (reactor_calls c))
              (set_sending_window (drop n (_sending_window c)) c) in
  retire_each (seqZ lo (Z.of_nat n)) c = Ok c' /\ Inv c' /\ shaped c'.
Proof.
  induction n as [|n IH]; intros c lo Hinv Hsh Hn Hlo; cbv zeta.
  - assert (E0 : set_reactor_calls
                   (cancel_each (take 0 (_sending_window c)) (reactor_calls c))
                   (set_sending_window (drop 0 (_sending_window c)) c) = c)
      by (by destruct c).
    by rewrite E0.
  - destruct (_sending_window c) as [|[k sch] w] eqn:Ew; [simpl in Hn; lia|].
    simpl in Hlo. injection Hlo as ->. simpl in Hn.
    destruct (contiguous_head c lo sch w (sh_contig _ _ _ _ c Hsh) Ew) as [Elo Hkeys].
    assert (Hget : odict.get lo (_sending_window c) = Some sch)
      by (rewrite Ew; simpl; by rewrite Z.eqb_refl).
    assert (Hrem : odict.remove lo (_sending_window c) = w)
      by (rewrite Ew; simpl; by rewrite Z.eqb_refl).
    assert (Hlt : lo < _next_sequence_number c) by lia.
    pose proof (retire_one_inv WINDOW_SIZE c lo sch Hinv Hget Hlt) as Hinv'.
    cbv zeta in Hinv'. rewrite Hrem in Hinv'.
    pose proof (shaped_tail MAX_RETRANSMISSIONS o d r c (lo, sch) w
                  (mark (timeout_cb sch) twisted.Cancelled (reactor_calls c)) Hsh Ew) as Hsh'.
    rewrite seqZ_succ. cbn [retire_each]. rewrite Hget, Hrem.
    rewrite (cancel_armed c lo sch);
      [|apply (st_armed _ c (proj1 Hinv))|by apply odict_get_Some_elem|done].
    cbn [and_then].
    destruct (IH _ (lo + 1) Hinv' Hsh') as (E & HI & HS).
    + simpl. lia.
    + simpl. rewrite Hkeys. destruct w; [simpl in Hn; lia|].
      simpl length in *. rewrite seqZ_succ. simpl. f_equal. lia.
    + cbv zeta in E, HI, HS. split; [|split].
      * etransitivity; [exact E|]. reflexivity.
      * exact HI.
      * exact HS.
Qed.

(** The acknowledged entries of a window, and those that stay. *)
Lemma retire_effect acknum c :
  Inv c -> shaped c ->
  let a := Z.min acknum (_next_sequence_number c) in
  let gone := filter (fun e => e.1 < a) (_sending_window c) in
  let c1 := set_reactor_calls (cancel_each gone (reactor_calls c))
              (set_sending_window (filter (fun e => a <= e.1) (_sending_window c)) c) in
  _retire_packets_with_seqnum_up_to WINDOW_SIZE acknum c =
    Ok (match gone with
        | [] => c
        | _ :: _ => _attempt_enabling_looping_send WINDOW_SIZE c1
        end) /\
  Inv c1 /\ shaped c1.
Proof.
  intros Hinv Hsh a gone c1. unfold _retire_packets_with_seqnum_up_to.
  destruct (_sending_window c) as [|[lo sch] w] eqn:Ew.
  - assert (E0 : c1 = c).
    { subst c1 gone. rewrite !filter_nil. destruct c. simpl in Ew. by subst. }
    subst gone. rewrite E0. by rewrite filter_nil.
  - cbn [odict.keys fmap list_fmap fst]. fold a.
    destruct (contiguous_head c lo sch w (sh_contig _ _ _ _ c Hsh) Ew) as [Elo Hkeys].
    assert (Hall : odict.keys (_sending_window c)
                   = seqZ lo (Z.of_nat (length (_sending_window c)))).
    { rewrite (sh_contig _ _ _ _ c Hsh). rewrite Ew. simpl length. f_equal. lia. }
    destruct (consecutive_cut a (_sending_window c) lo Hall) as [Etake Edrop].
    rewrite Ew in Etake, Edrop.
    assert (Hbound : (Z.to_nat (a - lo) < length (_sending_window c))%nat).
    { rewrite Ew. simpl length. lia. }
    destruct (retire_each_effect (Z.to_nat (a - lo)) c lo Hinv Hsh Hbound) as (E & HI & HS).
    { by rewrite Ew. }
    cbv zeta in E, HI, HS. rewrite Ew in E, HI, HS. rewrite Etake, Edrop in E, HI, HS.
    fold gone in E, HI, HS. fold c1 in E, HI, HS.
    split; [|done].
    unfold py.range2.
    destruct (Z.ltb_spec lo a) as [Hlt|Hge].
    + rewrite Z2Nat.id in E by lia. rewrite E. cbn [and_then].
      subst gone. rewrite filter_cons_True by (simpl; lia). done.
    + replace (Z.to_nat (a - lo)) with 0%nat in E by lia.
      replace (seqZ lo (a - lo)) with (@nil Z).
      2:{ symmetry. apply length_zero_iff_nil. rewrite length_seqZ. lia. }
      simpl. subst gone. rewrite <- Etake. replace (Z.to_nat (a - lo)) with 0%nat by lia.
      done.
Qed.

End Retiring.

(** ** Every event keeps the shape *)

Section Events.
Variables UDP_SAFE_SEGMENT_SIZE WINDOW_SIZE MAX_RETRANSMISSIONS : Z.
Variable recursion_limit : nat.
Variables o d r : Address.

Local Abbreviation shaped := (shaped MAX_RETRANSMISSIONS o d r).
Local Abbreviation Inv := (Inv WINDOW_SIZE).

Lemma dequeue_receiving c :
  _next_expected_seqnum (conn_of (_dequeue_outbound_message WINDOW_SIZE c))
    = _next_expected_seqnum c /\
  _receive_heap (conn_of (_dequeue_outbound_message WINDOW_SIZE c)) = _receive_heap c /\
  _looping_receive (conn_of (_dequeue_outbound_message WINDOW_SIZE c)) = _looping_receive c.
Proof.
  unfold _dequeue_outbound_message.
  destruct (_segment_queue c) as [|[mf msg] rest]; [done|].
  simpl. unfold _attempt_disabling_looping_send. by destruct (_ && _).
Qed.

Lemma enabling_receiving c :
  _next_expected_seqnum (_attempt_enabling_looping_send WINDOW_SIZE c)
    = _next_expected_seqnum c /\
  _receive_heap (_attempt_enabling_looping_send WINDOW_SIZE c) = _receive_heap c /\
  _looping_receive (_attempt_enabling_looping_send WINDOW_SIZE c) = _looping_receive c.
Proof.
  unfold _attempt_enabling_looping_send.
  destruct (_ && _ && _ && _); [|done].
  unfold loop_start, loop_call.
  pose proof (dequeue_receiving (set_looping_send (twisted.mkLoop true twisted.Zero) c)) as H.
  destruct (_dequeue_outbound_message WINDOW_SIZE _) as [c'|x c']; simpl in *; done.
Qed.

(** The first half of [_process_casual_packet]: the acknowledgement. *)
Lemma casual_ack_effect p c :
  Inv c -> shaped c ->
  exists c1,
    (if (packet.ack p >? 0) && negb (bool_decide (_sending_window c = []))
     then _retire_packets_with_seqnum_up_to WINDOW_SIZE (packet.ack p) c
     else Ok c) = Ok c1 /\
    Inv c1 /\ shaped c1 /\
    connected c1 = connected c /\
    _next_expected_seqnum c1 = _next_expected_seqnum c /\
    proto_sent c1 = proto_sent c.
Proof.
  intros Hinv Hsh.
  destruct ((packet.ack p >? 0) && negb (bool_decide (_sending_window c = [])));
    [|by exists c].
  destruct (retire_effect WINDOW_SIZE MAX_RETRANSMISSIONS o d r (packet.ack p) c Hinv Hsh)
    as (E & HI & HS).
  cbv zeta in E, HI, HS. rewrite E.
  destruct (filter _ (_sending_window c)) as [|e gone] eqn:Eg; [by exists c|].
  eexists. split; [reflexivity|].
  destruct (enabling_inv WINDOW_SIZE _ HI) as (HI' & Hconn & _ & Hsent & _).
  destruct (enabling_receiving
              (set_reactor_calls (cancel_each (e :: gone) (reactor_calls c))
                 (set_sending_window
                    (filter (fun e => Z.min (packet.ack p) (_next_sequence_number c) <= e.1)
                            (_sending_window c)) c))) as (Hnee & _).
  split; [exact HI'|]. split; [by apply enabling_shaped|].
  rewrite Hconn, Hnee, Hsent. done.
Qed.

Lemma process_casual_effect p c :
  Inv c -> shaped c ->
  exists c',
    _process_casual_packet WINDOW_SIZE recursion_limit p c =
      (if (packet.sequence_number p >? 0)
          && (packet.sequence_number p =? _next_expected_seqnum c)
       then Raise py.AttributeError c' else Ok c') /\
    shaped c' /\
    connected c' = connected c /\
    proto_sent c' = proto_sent c /\
    _next_expected_seqnum c' =
      (if (packet.sequence_number p >? 0)
          && (packet.sequence_number p =? _next_expected_seqnum c)
       then _next_expected_seqnum c + 1 else _next_expected_seqnum c).
Proof.
  intros Hinv Hsh. unfold _process_casual_packet.
  destruct (casual_ack_effect p c Hinv Hsh) as (c1 & -> & HI & HS & Hconn & Hnee & Hsent).
  cbn [and_then].
  destruct (packet.sequence_number p >? 0); [|by exists c1].
  cbn [set_receive_heap _next_expected_seqnum andb]. rewrite Hnee.
  destruct (packet.sequence_number p =? _next_expected_seqnum c).
  - rewrite reset_ack_idle by apply (st_ack _ c1 (proj1 HI)).
    eexists. split; [reflexivity|]. simpl.
    split; [|done]. by apply (shaped_frame _ _ _ _ c1).
  - eexists. split; [reflexivity|]. simpl.
    split; [|done]. by apply (shaped_frame _ _ _ _ c1).
Qed.

Lemma process_syn_effect p c :
  Inv c -> shaped c ->
  exists c', _process_syn_packet WINDOW_SIZE p c = Ok c' /\ shaped c'.
Proof.
  intros Hinv Hsh. unfold _process_syn_packet.
  destruct (packet.ack p >? 0).
  - destruct (_sending_window c) as [|[lo sch] w] eqn:Ew; [by exists c|].
    cbn [odict.keys fmap list_fmap fst].
    destruct (packet.ack p =? lo + 1); [|by exists c].
    cbn [odict.get odict.remove]. rewrite Z.eqb_refl.
    rewrite (cancel_armed c lo sch);
      [|apply (st_armed _ c (proj1 Hinv))|rewrite Ew; by left|done].
    cbn [and_then]. eexists. split; [reflexivity|].
    apply enabling_shaped.
    eapply shaped_frame; [|apply (shaped_tail _ _ _ _ c (lo, sch) w
      (mark (timeout_cb sch) twisted.Cancelled (reactor_calls c)) Hsh Ew)].
    done.
  - eexists. split; [reflexivity|].
    set (c1 := set_next_expected_seqnum _ c).
    assert (H1 : shaped c1) by (by apply (shaped_frame _ _ _ _ c)).
    apply clear_shaped in H1.
    destruct (negb _).
    + apply (shaped_frame _ _ _ _ (_send_syn (_clear_sending_window c1))); [done|].
      by apply send_syn_shaped.
    + by apply (shaped_frame _ _ _ _ (_clear_sending_window c1)).
Qed.

(** What [receive_packet] can raise. *)
Lemma receive_packet_effect p c :
  Inv c -> shaped c ->
  exists c',
    receive_packet WINDOW_SIZE recursion_limit p c =
      (if connected c && negb (packet.fin p) && negb (packet.syn p)
          && (packet.sequence_number p >? 0)
          && (packet.sequence_number p =? _next_expected_seqnum c)
       then Raise py.AttributeError c' else Ok c') /\
    shaped c'.
Proof.
  intros Hinv Hsh. unfold receive_packet.
  destruct (packet.fin p).
  - rewrite andb_false_r. simpl. unfold _process_fin_packet.
    destruct (connected c || _); eexists; (split; [reflexivity|]);
      [by apply shutdown_shaped|done].
  - destruct (packet.syn p).
    + rewrite andb_false_r. simpl. destruct (negb (connected c)); [|by exists c].
      apply process_syn_effect; done.
    + destruct (connected c); [|by exists c]. simpl.
      destruct (process_casual_effect p c Hinv Hsh) as (c' & E & HS & _).
      by exists c'.
Qed.

Lemma step_shaped e c :
  Inv c -> shaped c ->
  shaped (conn_of (step UDP_SAFE_SEGMENT_SIZE WINDOW_SIZE MAX_RETRANSMISSIONS
                        recursion_limit e c)).
Proof.
  intros Hinv Hsh. destruct e as [m|p| | |id| | |]; cbn [step conn_of].
  - by apply send_message_shaped.
  - destruct (receive_packet_effect p c Hinv Hsh) as (c' & -> & HS).
    by destruct (_ && _ && _ && _ && _).
  - by apply shutdown_shaped.
  - by apply fire_syn_handle_shaped.
  - apply fire_delayed_send_shaped; [apply (st_ack _ c (proj1 Hinv))|done].
  - unfold turn. destruct (running (_looping_send c)); [|done].
    unfold loop_call. pose proof (dequeue_shaped WINDOW_SIZE _ _ _ _ c Hsh) as H.
    destruct (_dequeue_outbound_message WINDOW_SIZE c) as [c'|x c']; [done|].
    by apply (shaped_frame _ _ _ _ c').
  - unfold turn. by rewrite (st_ack _ c (proj1 Hinv)).
  - unfold turn. by rewrite (st_receive _ c (proj1 Hinv)).
Qed.

Lemma run_shaped events : forall c,
  Inv c -> shaped c ->
  shaped (run UDP_SAFE_SEGMENT_SIZE WINDOW_SIZE MAX_RETRANSMISSIONS recursion_limit events c).
Proof.
  induction events as [|e events IH]; intros c Hinv Hsh; [done|].
  unfold run. cbn [foldl]. apply IH.
  - by apply step_inv.
  - by apply step_shaped.
Qed.

End Events.

Lemma init_shaped MAX n0 own dest relay :
  1 <= n0 ->
  shaped MAX own dest (default dest relay) (__init__ n0 own dest relay).
Proof. intros Hn. constructor; simpl; try done. Qed.

Lemma reachable_shaped SEG W MAX depth c :
  reachable SEG W MAX depth c ->
  Inv W c /\ shaped MAX (own_addr c) (dest_addr c) (relay_addr c) c.
Proof.
  intros Hr. pose proof (reachable_inv _ _ _ _ c Hr) as Hinv. split; [done|].
  destruct Hr as (n0 & own & dest & relay & events & Hn & ->).
  pose proof (run_shaped SEG W MAX depth own dest (default dest relay) events
                (__init__ n0 own dest relay)
                (init_inv W n0 own dest relay ltac:(lia))
                (init_shaped MAX n0 own dest relay ltac:(lia))) as H.
  by rewrite (sh_own _ _ _ _ _ H), (sh_dest _ _ _ _ _ H), (sh_relay _ _ _ _ _ H).
Qed.


(** ** Further theorems *)

Lemma odict_get_elem {V} k (v : V) d :
  StronglySorted Z.lt (odict.keys d) -> (k, v) ∈ d -> odict.get k d = Some v.
Proof.
  induction d as [|[k' v'] d IH]; intros Hs Hin; [by apply elem_of_nil in Hin|].
  simpl in Hs. apply StronglySorted_inv in Hs as [Hs Hall].
  apply elem_of_cons in Hin as [E | Hin].
  - injection E as -> ->. simpl. by rewrite Z.eqb_refl.
  - simpl. destruct (Z.eqb_spec k k') as [->|_]; [|by apply IH].
    assert (Hk : k' ∈ odict.keys d) by (apply list_elem_of_fmap; by exists (k', v)).
    apply (Forall_elem Hall) in Hk. lia.
Qed.

Section Reachable.
Variables UDP_SAFE_SEGMENT_SIZE WINDOW_SIZE MAX_RETRANSMISSIONS : Z.
Variable recursion_limit : nat.

Local Abbreviation reachable :=
  (reachable UDP_SAFE_SEGMENT_SIZE WINDOW_SIZE MAX_RETRANSMISSIONS recursion_limit).

(** X7: in every reachable state the keys of the send window are
    consecutive integers, in increasing order, and the last one is the
    last sequence number issued: the window holds the packets numbered
    [_next_sequence_number - len + 1] to [_next_sequence_number], with
    no gap.  All the keys are positive. *)
Theorem window_keys_are_consecutive (c : RUDPConnection) :
  reachable c ->
  odict.keys (_sending_window c) =
    py.range2 (_next_sequence_number c + 1 - Z.of_nat (length (_sending_window c)))
              (_next_sequence_number c + 1) /\
  Forall (fun k => 0 < k) (odict.keys (_sending_window c)).
Proof.
  intros Hr. destruct (reachable_shaped _ _ _ _ c Hr) as [[Hst _] Hsh].
  split.
  - rewrite (sh_contig _ _ _ _ c Hsh). unfold py.range2. f_equal. lia.
  - unfold odict.keys. apply Forall_fmap.
    pose proof (sh_window _ _ _ _ c Hsh) as Hw. pose proof (st_stored _ c Hst) as Hs.
    apply Forall_forall. intros e He.
    apply (Forall_elem Hw) in He as Hw'. apply (Forall_elem Hs) in He as Hs'.
    simpl in *. destruct Hw' as (_ & _ & ?). lia.
Qed.

(** X8: in every reachable state [_retire_packets_with_seqnum_up_to]
    returns without an exception (no [KeyError] from the window, no
    error from [cancel]).  With [a] the smaller of the acknowledgement
    and the last sequence number issued, it removes exactly the entries
    with a key below [a] and keeps the others in their order; the timers
    of the removed entries were pending and are cancelled, those of the
    kept entries are still pending; the looping sender is looked at
    again exactly when an entry was removed.  A non-empty window is
    never emptied. *)
Theorem retire_removes_exactly_the_entries_below_the_ack
    (acknum : Z) (c : RUDPConnection) :
  reachable c ->
  let a := Z.min acknum (_next_sequence_number c) in
  let gone := filter (fun e => e.1 < a) (_sending_window c) in
  let kept := filter (fun e => a <= e.1) (_sending_window c) in
  let c1 := set_reactor_calls (cancel_each gone (reactor_calls c))
              (set_sending_window kept c) in
  _retire_packets_with_seqnum_up_to WINDOW_SIZE acknum c =
    Ok (match gone with
        | [] => c
        | _ :: _ => _attempt_enabling_looping_send WINDOW_SIZE c1
        end) /\
  (forall seqnum sch_packet,
      (seqnum, sch_packet) ∈ gone ->
      call_active (timeout_cb sch_packet) c = true /\
      call_active (timeout_cb sch_packet) c1 = false) /\
  (forall seqnum sch_packet,
      (seqnum, sch_packet) ∈ kept -> call_active (timeout_cb sch_packet) c1 = true) /\
  (_sending_window c <> [] -> kept <> []).
Proof.
  intros Hr a gone kept c1. destruct (reachable_shaped _ _ _ _ c Hr) as [Hinv Hsh].
  destruct (retire_effect WINDOW_SIZE MAX_RETRANSMISSIONS _ _ _ acknum c Hinv Hsh)
    as (E & HI & HS).
  cbv zeta in E, HI, HS. fold a in E, HI, HS. fold gone in E, HI, HS. fold kept in HI, HS.
  fold c1 in HI, HS. split; [exact E|]. split; [|split].
  - intros k s Hin. split.
    + apply list_elem_of_filter in Hin as [_ Hin].
      pose proof (Forall_elem (st_armed _ c (proj1 Hinv)) _ Hin) as (dc & Hdc & Hp & _).
      unfold call_active, active_in. simpl in Hdc. by rewrite Hdc, Hp.
    + unfold call_active. subst c1. simpl.
      apply (cancel_each_covers gone (k, s)). exact Hin.
  - intros k s Hin.
    assert (Hin' : (k, s) ∈ _sending_window c1) by exact Hin.
    pose proof (Forall_elem (st_armed _ c1 (proj1 HI)) _ Hin') as (dc & Hdc & Hp & _).
    unfold call_active, active_in. simpl in Hdc. simpl. by rewrite Hdc, Hp.
  - intros Hne Hk.
    pose proof (contiguous_last c (sh_contig _ _ _ _ c Hsh) Hne) as Hlast.
    apply list_elem_of_fmap in Hlast as ([k s] & Ek & Hin). simpl in Ek. subst k.
    assert (Hin' : (_next_sequence_number c, s) ∈ kept).
    { apply list_elem_of_filter. split; [simpl; lia|done]. }
    rewrite Hk in Hin'. by apply elem_of_nil in Hin'.
Qed.

(** X9: the three addresses of a connection never change.  Every
    datagram the connection hands to the protocol goes to the relay
    address (the destination when no relay was given) and carries the
    destination as its destination and the own address as its source;
    so does every packet kept in the send window. *)
Theorem every_datagram_goes_to_the_relay
    (initial_seqnum : Z) (own dest : Address) (relay : option Address)
    (events : list Event) :
  1 <= initial_seqnum ->
  let c := run UDP_SAFE_SEGMENT_SIZE WINDOW_SIZE MAX_RETRANSMISSIONS recursion_limit events
               (__init__ initial_seqnum own dest relay) in
  own_addr c = own /\ dest_addr c = dest /\ relay_addr c = default dest relay /\
  Forall (fun x => x.2 = default dest relay /\
                   packet.dest_addr x.1 = dest /\ packet.source_addr x.1 = own)
         (proto_sent c) /\
  Forall (fun e => packet.dest_addr (rudp_packet e.2) = dest /\
                   packet.source_addr (rudp_packet e.2) = own)
         (_sending_window c).
Proof.
  intros Hn c.
  pose proof (run_shaped UDP_SAFE_SEGMENT_SIZE WINDOW_SIZE MAX_RETRANSMISSIONS recursion_limit
                own dest (default dest relay) events
                (__init__ initial_seqnum own dest relay)
                (init_inv WINDOW_SIZE initial_seqnum own dest relay ltac:(lia))
                (init_shaped MAX_RETRANSMISSIONS initial_seqnum own dest relay Hn)) as H.
  fold c in H. destruct H as [H1 H2 H3 _ _ _ Hw Hs _ _].
  split; [done|]. split; [done|]. split; [done|]. split.
  - eapply Forall_impl; [exact Hs|]. intros x (? & [? ?] & _). done.
  - eapply Forall_impl; [exact Hw|]. intros x ([? ?] & _). done.
Qed.

(** X10: in every reachable state the connection has sent as many FIN
    datagrams as it has notified its handler of a shutdown, and the
    datagrams with sequence number 0 are exactly the FINs: no bare ACK
    has left the connection. *)
Theorem every_shutdown_sends_one_fin_and_nothing_else_is_out_of_order (c : RUDPConnection) :
  reachable c ->
  length (List.filter (fun x => packet.fin x.1) (proto_sent c)) = handler_shutdowns c /\
  Forall (fun x => packet.sequence_number x.1 = 0 <-> packet.fin x.1 = true) (proto_sent c).
Proof.
  intros Hr. destruct (reachable_shaped _ _ _ _ c Hr) as [_ Hsh].
  split; [apply (sh_fins _ _ _ _ c Hsh)|].
  eapply Forall_impl; [apply (sh_sent _ _ _ _ c Hsh)|]. intros x (_ & _ & H). by symmetry.
Qed.

(** X11: in every reachable state the retransmission counter of a
    window entry is between 0 and [MAX_RETRANSMISSIONS] (0 when the
    limit is not positive). *)
Theorem retries_stay_within_the_limit
    (c : RUDPConnection) (seqnum : Z) (sch_packet : ScheduledPacket) :
  reachable c ->
  (seqnum, sch_packet) ∈ _sending_window c ->
  0 <= retries sch_packet <= Z.max 0 MAX_RETRANSMISSIONS.
Proof.
  intros Hr Hin. destruct (reachable_shaped _ _ _ _ c Hr) as [_ Hsh].
  apply (Forall_elem (sh_retries _ _ _ _ c Hsh) _ Hin).
Qed.

(** X12: [_attempt_enabling_looping_receive] is defined nowhere, so the
    looping receiver is never started: in every reachable state it is
    not running, a turn of it does nothing, and [receive_message] has
    not been called on the handler. *)
Theorem no_message_reaches_the_handler (c : RUDPConnection) :
  reachable c ->
  handler_received c = [] /\
  running (_looping_receive c) = false /\
  step UDP_SAFE_SEGMENT_SIZE WINDOW_SIZE MAX_RETRANSMISSIONS recursion_limit
       LoopingReceive c = Ok c.
Proof.
  intros Hr. destruct (reachable_shaped _ _ _ _ c Hr) as [[Hst _] Hsh].
  split; [apply (sh_received _ _ _ _ c Hsh)|]. split; [apply (st_receive _ c Hst)|].
  cbn [step]. unfold turn. by rewrite (st_receive _ c Hst).
Qed.

(** X13: on a connected connection in a reachable state, a packet that
    is neither FIN nor SYN and carries the expected (positive) sequence
    number makes [receive_packet] raise [AttributeError], after the
    expected sequence number was advanced by 1; nothing is emitted, the
    connection stays connected. *)
Theorem in_order_data_packet_raises_attribute_error (p : RUDPPacket) (c : RUDPConnection) :
  reachable c ->
  connected c = true ->
  packet.fin p = false -> packet.syn p = false ->
  0 < packet.sequence_number p ->
  packet.sequence_number p = _next_expected_seqnum c ->
  exists c',
    receive_packet WINDOW_SIZE recursion_limit p c = Raise py.AttributeError c' /\
    _next_expected_seqnum c' = _next_expected_seqnum c + 1 /\
    proto_sent c' = proto_sent c /\
    connected c' = true.
Proof.
  intros Hr Hconn Hfin Hsyn Hpos Hseq.
  destruct (reachable_shaped _ _ _ _ c Hr) as [Hinv Hsh].
  unfold receive_packet. rewrite Hfin, Hsyn, Hconn.
  destruct (process_casual_effect WINDOW_SIZE MAX_RETRANSMISSIONS recursion_limit _ _ _
              p c Hinv Hsh) as (c' & E & _ & Ec & Es & En).
  assert (Hcond : (packet.sequence_number p >? 0)
                  && (packet.sequence_number p =? _next_expected_seqnum c) = true).
  { apply andb_true_intro. split; [by apply Z.gtb_lt|by apply Z.eqb_eq]. }
  rewrite Hcond in E, En. exists c'. by rewrite Ec.
Qed.

(** X14: the exceptions that an event can raise in a reachable state.
    [send_message] raises [ZeroDivisionError] when the segment size is 0
    and then changes nothing; [receive_packet] raises [AttributeError]
    on the in-order data packet of a connected connection; the firing of
    a delayed call raises [KeyError] when the call is pending for a
    sequence number that is not in the window.  Nothing else is raised:
    in particular neither [_retire_packets_with_seqnum_up_to] nor
    [_process_syn_packet] fails on the window or on a timer. *)
Theorem exceptions_of_an_event (e : Event) (c c' : RUDPConnection) (x : py.exn) :
  reachable c ->
  step UDP_SAFE_SEGMENT_SIZE WINDOW_SIZE MAX_RETRANSMISSIONS recursion_limit e c
    = Raise x c' ->
  (x = py.ZeroDivisionError /\ UDP_SAFE_SEGMENT_SIZE = 0 /\ c' = c /\
   exists message, e = SendMessage message) \/
  (x = py.AttributeError /\
   exists p, e = ReceivePacket p /\ connected c = true /\
             packet.fin p = false /\ packet.syn p = false /\
             0 < packet.sequence_number p /\
             packet.sequence_number p = _next_expected_seqnum c) \/
  (x = py.KeyError /\
   exists id dc, e = DelayedSend id /\ reactor_calls c !! id = Some dc /\
                 twisted.state dc = twisted.Pending /\
                 (twisted.seqnum dc ∉ odict.keys (_sending_window c)) /\
                 c' = mark_call id twisted.Called c).
Proof.
  intros Hr Hstep. destruct (reachable_shaped _ _ _ _ c Hr) as [Hinv Hsh].
  destruct e as [m|p| | |id| | |]; cbn [step] in Hstep; try discriminate.
  - left. unfold send_message, _gen_segments in Hstep. cbv zeta in Hstep.
    destruct (Z.eqb_spec UDP_SAFE_SEGMENT_SIZE 0) as [E0|_]; [|discriminate].
    injection Hstep as <- <-. repeat split; try done. by exists m.
  - right; left.
    destruct (receive_packet_effect WINDOW_SIZE MAX_RETRANSMISSIONS recursion_limit _ _ _
                p c Hinv Hsh) as (c1 & E & _).
    rewrite E in Hstep.
    destruct (connected c) eqn:Ec; [|discriminate].
    destruct (packet.fin p) eqn:Ef; [discriminate|].
    destruct (packet.syn p) eqn:Es; [discriminate|].
    destruct (Z.gtb_spec (packet.sequence_number p) 0); [|discriminate].
    destruct (Z.eqb_spec (packet.sequence_number p) (_next_expected_seqnum c));
      [|discriminate].
    simpl in Hstep. injection Hstep as <- <-. split; [done|]. by exists p.
  - right; right. unfold fire_delayed_send in Hstep.
    destruct (reactor_calls c !! id) as [dc|] eqn:Edc; [|discriminate].
    destruct (twisted.state dc) eqn:Est; simpl in Hstep; try discriminate.
    unfold _do_send_packet in Hstep.
    destruct (odict.get (twisted.seqnum dc) (_sending_window (mark_call id twisted.Called c)))
      as [sch|] eqn:Hget.
    + destruct (retries sch >=? MAX_RETRANSMISSIONS); discriminate.
    + injection Hstep as <- <-. split; [done|]. exists id, dc.
      repeat split; try done. by apply odict_get_None in Hget.
Qed.

(** X15: in every reachable state the timer of a window entry is
    pending and, when it fires, [_do_send_packet] finds the entry under
    the timer's sequence number: no [KeyError].  The fired timer is not
    active any more.  An entry that has used up its retransmissions
    shuts the connection down; otherwise the entry's datagram goes to
    the relay address, the entry gets a new pending timer and one more
    retry, and the keys of the window are as before. *)
Theorem timer_of_a_window_entry_finds_its_entry
    (c : RUDPConnection) (seqnum : Z) (sch_packet : ScheduledPacket) :
  reachable c ->
  (seqnum, sch_packet) ∈ _sending_window c ->
  call_active (timeout_cb sch_packet) c = true /\
  odict.get seqnum (_sending_window c) = Some sch_packet /\
  exists c',
    fire_delayed_send MAX_RETRANSMISSIONS recursion_limit (timeout_cb sch_packet) c = Ok c' /\
    call_active (timeout_cb sch_packet) c' = false /\
    if retries sch_packet >=? MAX_RETRANSMISSIONS
    then c' = shutdown (mark_call (timeout_cb sch_packet) twisted.Called c)
    else
      proto_sent c' = proto_sent c ++ [(rudp_packet sch_packet, relay_addr c)] /\
      odict.get seqnum (_sending_window c')
        = Some (mkScheduled (rudp_packet sch_packet) (timeout sch_packet)
                            (length (reactor_calls c)) (retries sch_packet + 1)) /\
      odict.keys (_sending_window c') = odict.keys (_sending_window c) /\
      call_active (length (reactor_calls c)) c' = true.
Proof.
  intros Hr Hin. destruct (reachable_shaped _ _ _ _ c Hr) as [[Hst _] Hsh].
  pose proof (Forall_elem (st_armed _ c Hst) _ Hin) as (dc & Hdc & Hp & Hk).
  simpl in Hdc, Hk.
  pose proof (odict_get_elem _ _ _ (st_sorted _ c Hst) Hin) as Hget.
  split; [unfold call_active, active_in; by rewrite Hdc, Hp|]. split; [done|].
  unfold fire_delayed_send. rewrite Hdc, Hp. simpl. rewrite Hk.
  unfold _do_send_packet. cbn [mark_call set_reactor_calls _sending_window]. rewrite Hget.
  assert (Hlt : (timeout_cb sch_packet < length (reactor_calls c))%nat)
    by (by apply lookup_lt_Some in Hdc).
  assert (Hcalled : active_in (mark (timeout_cb sch_packet) twisted.Called (reactor_calls c))
                              (timeout_cb sch_packet) = false).
  { unfold active_in, mark. rewrite Hdc. by rewrite list_lookup_insert_eq. }
  destruct (Z.geb_spec (retries sch_packet) MAX_RETRANSMISSIONS) as [Hge|Hlt'].
  - eexists. split; [reflexivity|]. split; [|done].
    destruct (shutdown_frame (mark_call (timeout_cb sch_packet) twisted.Called c))
      as (_ & _ & _ & _ & _ & _ & _ & _ & Ecalls).
    unfold call_active. rewrite Ecalls. by apply sweep_inactive.
  - simpl. rewrite reset_ack_idle by apply (st_ack _ c Hst).
    eexists. split; [reflexivity|]. simpl. unfold call_active. simpl.
    rewrite mark_length.
    split; [|split; [done|split; [|split]]].
    + unfold active_in in *. rewrite lookup_app_l by (by rewrite mark_length). done.
    + by rewrite odict_get_set, Z.eqb_refl.
    + apply odict_set_present. by apply get_in_keys in Hget.
    + unfold active_in. rewrite <- (mark_length (timeout_cb sch_packet) twisted.Called).
      by rewrite list_lookup_middle.
Qed.


(** X16: [send_message] on a connected connection in a reachable state
    whose looping sender is stopped and whose window has room: the
    segments are appended to the queue and the first segment of the
    queue is scheduled at once, under the next sequence number, with a
    pending timer and no retry; nothing is emitted yet.  The looping
    sender is left running exactly when the window still has room and
    the queue is not empty. *)
Theorem send_message_puts_the_first_segment_in_flight
    (message : list byte) (c : RUDPConnection)
    (segments : list Segment) (more_fragments : Z) (payload : list byte)
    (rest : list Segment) :
  reachable c ->
  _gen_segments UDP_SAFE_SEGMENT_SIZE message = Some segments ->
  _segment_queue c ++ segments = (more_fragments, payload) :: rest ->
  connected c = true ->
  running (_looping_send c) = false ->
  Z.of_nat (length (_sending_window c)) < WINDOW_SIZE ->
  exists c' e,
    send_message UDP_SAFE_SEGMENT_SIZE WINDOW_SIZE message c = Ok c' /\
    _sending_window c' = _sending_window c ++ [(_next_sequence_number c + 1, e)] /\
    rudp_packet e = packet.mk (_next_sequence_number c + 1) (dest_addr c) (own_addr c)
                      payload more_fragments (_next_expected_seqnum c) false false /\
    retries e = 0 /\
    call_active (timeout_cb e) c' = true /\
    _next_sequence_number c' = _next_sequence_number c + 1 /\
    _segment_queue c' = rest /\
    proto_sent c' = proto_sent c /\
    running (_looping_send c') =
      negb ((Z.of_nat (length (_sending_window c')) >=? WINDOW_SIZE)
            || (Z.of_nat (length rest) =? 0)).
Proof.
  intros Hr Hgen Hq Hconn Hrun Hroom.
  destruct (reachable_inv _ _ _ _ c Hr) as [Hst _].
  unfold send_message. rewrite Hgen, foldl_snoc_app, Hq.
  unfold _attempt_enabling_looping_send. simpl.
  rewrite Hconn, Hrun. simpl.
  destruct (Z.ltb_spec (Z.of_nat (length (_sending_window c))) WINDOW_SIZE); [|lia].
  simpl. unfold loop_start, loop_call.
  set (c1 := set_looping_send _ _).
  assert (Hst1 : stable WINDOW_SIZE c1) by (by apply (stable_frame WINDOW_SIZE c)).
  destruct (dequeue_effect WINDOW_SIZE c1 more_fragments payload rest Hst1 eq_refl)
    as (c' & e & -> & E1 & E2 & E3 & E4 & E5 & E6 & E7 & E8 & E9 & _ & _ & _ & E10).
  exists c', e. simpl in *. repeat (split; [done|]). split; [|done].
  unfold call_active, active_in. rewrite E6, E5. by rewrite list_lookup_middle.
Qed.

(** X17: in a reachable state an event hands at most one datagram to
    the protocol.  It is either the FIN of a shutdown (by [shutdown], by
    the peer's FIN or by a timer whose entry has used up its
    retransmissions) or the stored datagram of a window entry, sent by a
    timer.  Submitting a message, receiving a SYN or any other packet,
    and the turns of the loops emit nothing. *)
Theorem an_event_emits_at_most_one_datagram (e : Event) (c : RUDPConnection) :
  reachable c ->
  let c' := conn_of (step UDP_SAFE_SEGMENT_SIZE WINDOW_SIZE MAX_RETRANSMISSIONS
                          recursion_limit e c) in
  proto_sent c' = proto_sent c \/
  (proto_sent c' = proto_sent c ++ [(fin_packet c, relay_addr c)] /\
   (e = Shutdown \/ (exists p, e = ReceivePacket p /\ packet.fin p = true) \/
    (exists id, e = DelayedSend id))) \/
  (exists id seqnum sch_packet,
      e = DelayedSend id /\ (seqnum, sch_packet) ∈ _sending_window c /\
      proto_sent c' = proto_sent c ++ [(rudp_packet sch_packet, relay_addr c)]).
Proof.
  intros Hr c'. subst c'.
  destruct (reachable_shaped _ _ _ _ c Hr) as [Hinv Hsh].
  pose proof (st_ack _ c (proj1 Hinv)) as Hoff.
  destruct e as [m|p| | |id| | |]; cbn [step conn_of].
  - left. unfold send_message.
    destruct (_gen_segments UDP_SAFE_SEGMENT_SIZE m); [|done].
    cbn [conn_of]. by rewrite enabling_sent.
  - unfold receive_packet. destruct (packet.fin p) eqn:Ef.
    + destruct (connected c || _); [|by left]. right; left.
      unfold _process_fin_packet. cbn [conn_of].
      destruct (shutdown_effect c) as (_ & _ & _ & _ & _ & _ & -> & _).
      split; [done|]. right; left. by exists p.
    + left. destruct (packet.syn p).
      * destruct (negb (connected c)); [|done]. apply process_syn_sent.
      * destruct (connected c); [|done].
        destruct (process_casual_effect WINDOW_SIZE MAX_RETRANSMISSIONS recursion_limit
                    _ _ _ p c Hinv Hsh) as (c1 & -> & _ & _ & Es & _).
        by destruct (_ && _).
  - right; left. destruct (shutdown_effect c) as (_ & _ & _ & _ & _ & _ & -> & _).
    split; [done|]. by left.
  - left. unfold fire_syn_handle. destruct (twisted.active (_syn_handle c)); done.
  - unfold fire_delayed_send.
    destruct (reactor_calls c !! id) as [dc|]; [|by left].
    destruct (twisted.active (twisted.state dc)); [|by left].
    unfold _do_send_packet. cbn [mark_call set_reactor_calls _sending_window].
    destruct (odict.get (twisted.seqnum dc) (_sending_window c)) as [sch|] eqn:Hget;
      [|by left].
    destruct (retries sch >=? MAX_RETRANSMISSIONS).
    + right; left. cbn [conn_of].
      destruct (shutdown_effect (mark_call id twisted.Called c))
        as (_ & _ & _ & _ & _ & _ & -> & _).
      split; [done|]. right; right. by exists id.
    + right; right. exists id, (twisted.seqnum dc), sch.
      split; [done|]. split; [by apply odict_get_Some_elem|].
      simpl. by rewrite reset_ack_idle.
  - left. unfold turn. destruct (running (_looping_send c)); [|done].
    unfold loop_call. pose proof (dequeue_sent WINDOW_SIZE c) as H.
    by destruct (_dequeue_outbound_message WINDOW_SIZE c).
  - left. unfold turn. by rewrite Hoff.
  - left. unfold turn. by rewrite (st_receive _ c (proj1 Hinv)).
Qed.

End Reachable.

(** ** The handshake between two connections *)

Section Handshake.
Variables UDP_SAFE_SEGMENT_SIZE WINDOW_SIZE MAX_RETRANSMISSIONS : Z.
Variable recursion_limit : nat.

Local Abbreviation play :=
  (run UDP_SAFE_SEGMENT_SIZE WINDOW_SIZE MAX_RETRANSMISSIONS recursion_limit).

(** X18: the double handshake between two new connections, [A] from
    [x] to [y] and [B] from [y] to [x].  [A] sends its SYN; [B] receives
    it, is connected, and answers with a SYN that acknowledges the
    sequence number of [A]'s SYN plus 1; [A] receives that, retires its
    SYN and is connected.  [B] has recorded the sequence number it
    expects next from [A]; [A] has recorded none: its
    [_next_expected_seqnum] is still 0. *)
Theorem double_handshake_connects_both_endpoints (a b : Z) (x y : Address) :
  1 <= a -> 1 <= MAX_RETRANSMISSIONS ->
  let syn := packet.mk a y x [] 0 0 false true in
  let synack := packet.mk b x y [] 0 (a + 1) false true in
  let A1 := play [SynHandle; DelayedSend 0] (__init__ a x y None) in
  let B1 := play [ReceivePacket syn; SynHandle; DelayedSend 0] (__init__ b y x None) in
  let A2 := play [ReceivePacket synack] A1 in
  proto_sent A1 = [(syn, y)] /\
  proto_sent B1 = [(synack, x)] /\
  connected A1 = false /\ connected B1 = true /\ connected A2 = true /\
  in_flight A1 = [(a, true, [])] /\
  in_flight B1 = [(b, true, [])] /\
  _sending_window A2 = [] /\
  _next_expected_seqnum B1 = a + 1 /\
  _next_expected_seqnum A2 = 0 /\
  proto_sent A2 = [(syn, y)].
Proof.
  intros Ha HM. cbv zeta.
  assert (E0 : (0 >=? MAX_RETRANSMISSIONS) = false) by lia.
  assert (E1 : (a + 1 >? 0) = true) by lia.
  unfold run. cbn [foldl step conn_of].
  unfold fire_syn_handle, __init__. cbn.
  unfold fire_delayed_send. cbn. unfold _do_send_packet. cbn.
  rewrite !Z.eqb_refl. cbn. rewrite E0. cbn.
  unfold _process_syn_packet. cbn. rewrite E1. cbn. rewrite !Z.eqb_refl. cbn.
  unfold _attempt_enabling_looping_send. cbn. rewrite andb_false_r. cbn.
  unfold _finalize_packet. repeat split; reflexivity.
Qed.
End Handshake.

(** ** The further theorems at work on the example connections *)

(** X1 on the last segment of the ten-byte message. *)
Lemma segments_fit_the_safe_size_witness :
  0 < 4 /\
  _gen_segments 4 example.alphabet
    = Some [(2, list_byte_of_string "abcd"); (1, list_byte_of_string "efgh");
            (0, list_byte_of_string "ij")] /\
  0 < Z.of_nat (length (0, list_byte_of_string "ij").2) <= 4 /\
  ((0, list_byte_of_string "ij").1 <> 0 ->
   Z.of_nat (length (0, list_byte_of_string "ij").2) = 4).
Proof.
  split; [lia|]. split; [reflexivity|].
  apply (segments_fit_the_safe_size 4 example.alphabet
           [(2, list_byte_of_string "abcd"); (1, list_byte_of_string "efgh");
            (0, list_byte_of_string "ij")] 2 (0, list_byte_of_string "ij"));
    [lia|reflexivity|reflexivity].
Defined.

(** X2 on two messages submitted to a new connection. *)
Lemma messages_wait_in_order_until_connected_witness :
  0 < 4 /\
  connected example.fresh = false /\
  exists segments,
    Forall2 (fun m s => _gen_segments 4 m = Some s)
            [example.hi; example.alphabet] segments /\
    run 4 3 2 8 (SendMessage <$> [example.hi; example.alphabet]) example.fresh
      = set_segment_queue (_segment_queue example.fresh ++ concat segments) example.fresh /\
    concat (snd <$> _segment_queue
                      (run 4 3 2 8 (SendMessage <$> [example.hi; example.alphabet])
                           example.fresh))
      = concat (snd <$> _segment_queue example.fresh)
          ++ concat [example.hi; example.alphabet].
Proof.
  split; [lia|]. split; [reflexivity|].
  apply (messages_wait_in_order_until_connected 4 3 2 8
           [example.hi; example.alphabet] example.fresh); [lia|reflexivity].
Defined.

(** X5 on the peer's SYN, received while our SYN is in flight. *)
Lemma bare_syn_connects_and_answers_with_a_synack_witness :
  packet.ack example.peer_syn <= 0 /\
  exists c',
    _process_syn_packet 3 example.peer_syn example.syn_sent = Ok c' /\
    connected c' = true /\
    _next_expected_seqnum c' = packet.sequence_number example.peer_syn + 1 /\
    _next_sequence_number c' = _next_sequence_number example.syn_sent.
Proof.
  split; [simpl; lia|].
  destruct (bare_syn_connects_and_answers_with_a_synack 3 example.peer_syn example.syn_sent)
    as (c' & H1 & H2 & H3 & H4 & _); [simpl; lia|].
  exists c'. exact (conj H1 (conj H2 (conj H3 H4))).
Defined.

(** X6 on the connection whose SYN was in flight when it was shut down. *)
Lemma closed_connection_drops_data_and_reopens_on_a_bare_syn_witness :
  packet.fin example.peer_syn = false /\
  (packet.syn example.peer_syn = true -> packet.ack example.peer_syn <= 0 ->
   exists c',
     receive_packet 3 8 example.peer_syn (shutdown example.syn_sent) = Ok c' /\
     connected c' = true /\
     _next_expected_seqnum c' = packet.sequence_number example.peer_syn + 1 /\
     _next_sequence_number c' = _next_sequence_number example.syn_sent /\
     _segment_queue c' = _segment_queue example.syn_sent /\
     handler_shutdowns c' = S (handler_shutdowns example.syn_sent)).
Proof.
  split; [reflexivity|].
  apply (closed_connection_drops_data_and_reopens_on_a_bare_syn 3 8
           example.peer_syn example.syn_sent).
  reflexivity.
Defined.

(** X7 on the connection with our SYNACK and a data packet in flight. *)
Lemma window_keys_are_consecutive_witness :
  reachable 4 3 2 8 scenario.two_in_flight /\
  odict.keys (_sending_window scenario.two_in_flight) =
    py.range2 (_next_sequence_number scenario.two_in_flight + 1
               - Z.of_nat (length (_sending_window scenario.two_in_flight)))
              (_next_sequence_number scenario.two_in_flight + 1) /\
  Forall (fun k => 0 < k) (odict.keys (_sending_window scenario.two_in_flight)).
Proof.
  split; [apply example_reachable|].
  apply (window_keys_are_consecutive 4 3 2 8 scenario.two_in_flight).
  apply example_reachable.
Defined.

(** X8 on the same connection, for the acknowledgement 7. *)
Lemma retire_removes_exactly_the_entries_below_the_ack_witness :
  reachable 4 3 2 8 scenario.two_in_flight /\
  let c := scenario.two_in_flight in
  let a := Z.min 7 (_next_sequence_number c) in
  let gone := filter (fun e => e.1 < a) (_sending_window c) in
  let kept := filter (fun e => a <= e.1) (_sending_window c) in
  let c1 := set_reactor_calls (cancel_each gone (reactor_calls c))
              (set_sending_window kept c) in
  _retire_packets_with_seqnum_up_to 3 7 c =
    Ok (match gone with
        | [] => c
        | _ :: _ => _attempt_enabling_looping_send 3 c1
        end) /\
  (forall seqnum sch_packet,
      (seqnum, sch_packet) ∈ gone ->
      call_active (timeout_cb sch_packet) c = true /\
      call_active (timeout_cb sch_packet) c1 = false) /\
  (forall seqnum sch_packet,
      (seqnum, sch_packet) ∈ kept -> call_active (timeout_cb sch_packet) c1 = true) /\
  (_sending_window c <> [] -> kept <> []).
Proof.
  split; [apply example_reachable|].
  apply (retire_removes_exactly_the_entries_below_the_ack 4 3 2 8 7 scenario.two_in_flight).
  apply example_reachable.
Defined.

(** X9 on a connection that sent its SYN and was shut down. *)
Lemma every_datagram_goes_to_the_relay_witness :
  1 <= 5 /\
  let c := run 4 3 2 8 [SynHandle; DelayedSend 0; Shutdown]
               (__init__ 5 example.here example.peer None) in
  own_addr c = example.here /\ dest_addr c = example.peer /\
  relay_addr c = default example.peer None /\
  Forall (fun x => x.2 = default example.peer None /\
                   packet.dest_addr x.1 = example.peer /\
                   packet.source_addr x.1 = example.here)
         (proto_sent c) /\
  Forall (fun e => packet.dest_addr (rudp_packet e.2) = example.peer /\
                   packet.source_addr (rudp_packet e.2) = example.here)
         (_sending_window c).
Proof.
  split; [lia|].
  apply (every_datagram_goes_to_the_relay 4 3 2 8 5 example.here example.peer None
           [SynHandle; DelayedSend 0; Shutdown]).
  lia.
Defined.

(** X10 on the connection shut down by the peer's FIN. *)
Lemma every_shutdown_sends_one_fin_and_nothing_else_is_out_of_order_witness :
  reachable 4 3 2 8 example.closed /\
  length (List.filter (fun x => packet.fin x.1) (proto_sent example.closed))
    = handler_shutdowns example.closed /\
  Forall (fun x => packet.sequence_number x.1 = 0 <-> packet.fin x.1 = true)
         (proto_sent example.closed).
Proof.
  split; [apply example_reachable|].
  apply (every_shutdown_sends_one_fin_and_nothing_else_is_out_of_order 4 3 2 8
           example.closed).
  apply example_reachable.
Defined.

(** X11 on our SYN after its first transmission. *)
Lemma retries_stay_within_the_limit_witness :
  reachable 4 3 2 8 scenario.syn_on_wire /\
  (5, mkScheduled (packet.mk 5 example.peer example.here [] 0 0 false true)
                  twisted.PACKET_TIMEOUT 1 1) ∈ _sending_window scenario.syn_on_wire /\
  0 <= retries (mkScheduled (packet.mk 5 example.peer example.here [] 0 0 false true)
                            twisted.PACKET_TIMEOUT 1 1) <= Z.max 0 2.
Proof.
  split; [apply example_reachable|].
  assert (Hin : (5, mkScheduled (packet.mk 5 example.peer example.here [] 0 0 false true)
                               twisted.PACKET_TIMEOUT 1 1)
                ∈ _sending_window scenario.syn_on_wire) by (vm_compute; left).
  split; [exact Hin|].
  exact (retries_stay_within_the_limit 4 3 2 8 scenario.syn_on_wire 5 _
           (example_reachable [SynHandle; DelayedSend 0]) Hin).
Defined.

(** X12 on the connection with two packets in flight. *)
Lemma no_message_reaches_the_handler_witness :
  reachable 4 3 2 8 scenario.two_in_flight /\
  handler_received scenario.two_in_flight = [] /\
  running (_looping_receive scenario.two_in_flight) = false /\
  step 4 3 2 8 LoopingReceive scenario.two_in_flight = Ok scenario.two_in_flight.
Proof.
  split; [apply example_reachable|].
  apply (no_message_reaches_the_handler 4 3 2 8 scenario.two_in_flight).
  apply example_reachable.
Defined.

(** X13 on the first data packet of the peer. *)
Lemma in_order_data_packet_raises_attribute_error_witness :
  reachable 4 3 2 8 example.synack_sent /\
  connected example.synack_sent = true /\
  packet.fin scenario.peer_data = false /\ packet.syn scenario.peer_data = false /\
  0 < packet.sequence_number scenario.peer_data /\
  packet.sequence_number scenario.peer_data = _next_expected_seqnum example.synack_sent /\
  exists c',
    receive_packet 3 8 scenario.peer_data example.synack_sent
      = Raise py.AttributeError c' /\
    _next_expected_seqnum c' = _next_expected_seqnum example.synack_sent + 1 /\
    proto_sent c' = proto_sent example.synack_sent /\
    connected c' = true.
Proof.
  split; [apply example_reachable|]. split; [reflexivity|]. split; [reflexivity|].
  split; [reflexivity|]. split; [simpl; lia|]. split; [reflexivity|].
  apply (in_order_data_packet_raises_attribute_error 4 3 2 8
           scenario.peer_data example.synack_sent);
    [apply example_reachable|reflexivity|reflexivity|reflexivity|simpl; lia|reflexivity].
Defined.

(** X14 on the timer that the data packet of [example.early_message]
    left behind: it fires after the shutdown and finds no entry. *)
Lemma exceptions_of_an_event_witness :
  reachable 4 3 2 8 scenario.stale /\
  step 4 3 2 8 (DelayedSend 0) scenario.stale
    = Raise py.KeyError (mark_call 0 twisted.Called scenario.stale) /\
  ((py.KeyError = py.ZeroDivisionError /\ 4 = 0 /\
    mark_call 0 twisted.Called scenario.stale = scenario.stale /\
    exists message, DelayedSend 0 = SendMessage message) \/
   (py.KeyError = py.AttributeError /\
    exists p, DelayedSend 0 = ReceivePacket p /\ connected scenario.stale = true /\
              packet.fin p = false /\ packet.syn p = false /\
              0 < packet.sequence_number p /\
              packet.sequence_number p = _next_expected_seqnum scenario.stale) \/
   (py.KeyError = py.KeyError /\
    exists id dc, DelayedSend 0 = DelayedSend id /\
                  reactor_calls scenario.stale !! id = Some dc /\
                  twisted.state dc = twisted.Pending /\
                  (twisted.seqnum dc ∉ odict.keys (_sending_window scenario.stale)) /\
                  mark_call 0 twisted.Called scenario.stale
                    = mark_call id twisted.Called scenario.stale)).
Proof.
  split; [apply example_reachable|]. split; [reflexivity|].
  apply (exceptions_of_an_event 4 3 2 8 (DelayedSend 0) scenario.stale
           (mark_call 0 twisted.Called scenario.stale) py.KeyError);
    [apply example_reachable|reflexivity].
Defined.

(** X15 on the window entry of our SYN. *)
Lemma timer_of_a_window_entry_finds_its_entry_witness :
  reachable 4 3 2 8 example.syn_sent /\
  (5, example.syn_entry) ∈ _sending_window example.syn_sent /\
  call_active (timeout_cb example.syn_entry) example.syn_sent = true /\
  odict.get 5 (_sending_window example.syn_sent) = Some example.syn_entry /\
  exists c',
    fire_delayed_send 2 8 (timeout_cb example.syn_entry) example.syn_sent = Ok c' /\
    call_active (timeout_cb example.syn_entry) c' = false /\
    if retries example.syn_entry >=? 2
    then c' = shutdown (mark_call (timeout_cb example.syn_entry) twisted.Called
                                  example.syn_sent)
    else
      proto_sent c' = proto_sent example.syn_sent
                        ++ [(rudp_packet example.syn_entry, relay_addr example.syn_sent)] /\
      odict.get 5 (_sending_window c')
        = Some (mkScheduled (rudp_packet example.syn_entry) (timeout example.syn_entry)
                            (length (reactor_calls example.syn_sent))
                            (retries example.syn_entry + 1)) /\
      odict.keys (_sending_window c') = odict.keys (_sending_window example.syn_sent) /\
      call_active (length (reactor_calls example.syn_sent)) c' = true.
Proof.
  split; [apply example_reachable|].
  assert (Hin : (5, example.syn_entry) ∈ _sending_window example.syn_sent)
    by (vm_compute; left).
  split; [exact Hin|].
  exact (timer_of_a_window_entry_finds_its_entry 4 3 2 8 example.syn_sent 5
           example.syn_entry (example_reachable [SynHandle]) Hin).
Defined.

(** X16 on a message submitted once the peer's SYN was answered. *)
Lemma send_message_puts_the_first_segment_in_flight_witness :
  reachable 4 3 2 8 example.synack_sent /\
  _gen_segments 4 example.hi = Some [(0, example.hi)] /\
  _segment_queue example.synack_sent ++ [(0, example.hi)] = (0, example.hi) :: [] /\
  connected example.synack_sent = true /\
  running (_looping_send example.synack_sent) = false /\
  Z.of_nat (length (_sending_window example.synack_sent)) < 3 /\
  exists c' e,
    send_message 4 3 example.hi example.synack_sent = Ok c' /\
    _sending_window c'
      = _sending_window example.synack_sent
          ++ [(_next_sequence_number example.synack_sent + 1, e)] /\
    rudp_packet e
      = packet.mk (_next_sequence_number example.synack_sent + 1)
                  (dest_addr example.synack_sent) (own_addr example.synack_sent)
                  example.hi 0 (_next_expected_seqnum example.synack_sent) false false /\
    retries e = 0 /\
    call_active (timeout_cb e) c' = true /\
    _next_sequence_number c' = _next_sequence_number example.synack_sent + 1 /\
    _segment_queue c' = [] /\
    proto_sent c' = proto_sent example.synack_sent /\
    running (_looping_send c') =
      negb ((Z.of_nat (length (_sending_window c')) >=? 3)
            || (Z.of_nat (length (@nil Segment)) =? 0)).
Proof.
  split; [apply example_reachable|]. split; [reflexivity|]. split; [reflexivity|].
  split; [reflexivity|]. split; [reflexivity|]. split; [simpl; lia|].
  apply (send_message_puts_the_first_segment_in_flight 4 3 2 8 example.hi
           example.synack_sent [(0, example.hi)] 0 example.hi []);
    [apply example_reachable|reflexivity|reflexivity|reflexivity|reflexivity|simpl; lia].
Defined.

(** X17 on the first firing of the timer of our SYN. *)
Lemma an_event_emits_at_most_one_datagram_witness :
  reachable 4 3 2 8 example.syn_sent /\
  let c := example.syn_sent in
  let c' := conn_of (step 4 3 2 8 (DelayedSend 0) c) in
  proto_sent c' = proto_sent c \/
  (proto_sent c' = proto_sent c ++ [(fin_packet c, relay_addr c)] /\
   (DelayedSend 0 = Shutdown \/
    (exists p, DelayedSend 0 = ReceivePacket p /\ packet.fin p = true) \/
    (exists id, DelayedSend 0 = DelayedSend id))) \/
  (exists id seqnum sch_packet,
      DelayedSend 0 = DelayedSend id /\ (seqnum, sch_packet) ∈ _sending_window c /\
      proto_sent c' = proto_sent c ++ [(rudp_packet sch_packet, relay_addr c)]).
Proof.
  split; [apply example_reachable|].
  apply (an_event_emits_at_most_one_datagram 4 3 2 8 (DelayedSend 0) example.syn_sent).
  apply example_reachable.
Defined.

(** X18 for the sequence numbers 5 and 9. *)
Lemma double_handshake_connects_both_endpoints_witness :
  1 <= 5 /\ 1 <= 2 /\
  let syn := packet.mk 5 example.peer example.here [] 0 0 false true in
  let synack := packet.mk 9 example.here example.peer [] 0 (5 + 1) false true in
  let A1 := run 4 3 2 8 [SynHandle; DelayedSend 0]
                (__init__ 5 example.here example.peer None) in
  let B1 := run 4 3 2 8 [ReceivePacket syn; SynHandle; DelayedSend 0]
                (__init__ 9 example.peer example.here None) in
  let A2 := run 4 3 2 8 [ReceivePacket synack] A1 in
  proto_sent A1 = [(syn, example.peer)] /\
  proto_sent B1 = [(synack, example.here)] /\
  connected A1 = false /\ connected B1 = true /\ connected A2 = true /\
  in_flight A1 = [(5, true, [])] /\
  in_flight B1 = [(9, true, [])] /\
  _sending_window A2 = [] /\
  _next_expected_seqnum B1 = 5 + 1 /\
  _next_expected_seqnum A2 = 0 /\
  proto_sent A2 = [(syn, example.peer)].
Proof.
  split; [lia|]. split; [lia|].
  apply (double_handshake_connects_both_endpoints 4 3 2 8 5 9 example.here example.peer);
    lia.
Defined.
